(** * Helalink push scheduler: a shallow embedding of [server.js]

    The development follows the server source: the fail-soft JSON store
    ([readJSON], [loadSubscriptions]), the dispatch client
    ([sendPushSafely]), the planner inside [scheduleFor] (launch delay and
    the [parseInt]-based daily times), the runtime registry of timers and
    cron jobs ([runtimeJobs]), and the request handlers
    ([/api/subscribe], [/api/unsubscribe]).

    JavaScript objects used as dictionaries are finite maps keyed by
    strings; timer and cron handles are references into a heap of
    triggers; exceptions are explicit, where the source catches them.
    What lies outside the source is an environment: the [Date] parser
    and the clocks of the host, the answers of the push transport, and
    the expressions that the cron library takes or refuses. *)

From Stdlib Require Import ZArith Lia Ascii String.
From stdpp Require Import base option list strings gmap.

(** ** Completions: normal return or a thrown value *)

Module Js.

Inductive Completion (E A : Type) : Type :=
| Normal (a : A)
| Throw (e : E).
Arguments Normal {E A} a.
Arguments Throw {E A} e.

Definition bind {E A B} (c : Completion E A) (k : A → Completion E B)
  : Completion E B :=
  match c with
  | Normal a => k a
  | Throw e => Throw e
  end.

(** [try { body } catch (e) { handler e }] *)
Definition try_catch {E A} (body : Completion E A)
    (handler : E → Completion E A) : Completion E A :=
  match body with
  | Normal a => Normal a
  | Throw e => handler e
  end.

(** A run of statements over mutable state that may throw part-way:
    the state it had reached, and whether it ran to its end. *)
Inductive Attempt (A : Type) : Type :=
| Finished (a : A)
| Interrupted (a : A).
Arguments Finished {A} a.
Arguments Interrupted {A} a.

(** The state left behind, which is what a caller sees after
    [try { ... } catch (e) { console.error(...) }]. *)
Definition reached {A} (x : Attempt A) : A :=
  match x with
  | Finished a => a
  | Interrupted a => a
  end.

Definition finished {A} (x : Attempt A) : bool :=
  match x with
  | Finished _ => true
  | Interrupted _ => false
  end.

(** [l.forEach(x => ...)] over mutable state: a throw in one turn ends
    the loop. *)
Fixpoint for_each {A B} (f : A → B → Attempt A) (acc : A) (l : list B)
  : Attempt A :=
  match l with
  | [] => Finished acc
  | x :: l' =>
      match f acc x with
      | Finished acc' => for_each f acc' l'
      | Interrupted acc' => Interrupted acc'
      end
  end.

(** The value of a property read such as [err.statusCode]. *)
Inductive Prop_value : Type :=
| Undefined
| Number (z : Z)
| Text (s : string).

(** [v === n] for a number literal [n]: no coercion. *)
Definition strict_eq_number (v : Prop_value) (n : Z) : bool :=
  match v with
  | Number z => Z.eqb z n
  | _ => false
  end.

(** An [Error] object as the sources inspect it. *)
Record Error_object : Type := {
  statusCode : Prop_value;
  message : string;
}.

(** What a [catch (err)] clause may receive: any value, truthy or not. *)
Inductive Thrown : Type :=
| Falsy
| Object (o : Error_object).

End Js.

Notation "x ←! c ; k" := (Js.bind c (fun x => k))
(at level 100, c at next level, right associativity, only parsing).

(** ** Recipient store: fail-soft loading *)

Module Store.
Import Js.

(** The backing file as [fs] sees it. *)
Inductive File : Type :=
| Missing
| Unreadable (e : Error_object)
| Holds (raw : string).

Definition existsSync (f : File) : bool :=
  match f with
  | Missing => false
  | _ => true
  end.

Definition readFileSync (f : File) : Completion Error_object string :=
  match f with
  | Holds raw => Normal raw
  | Unreadable e => Throw e
  | Missing => Throw {| statusCode := Undefined; message := "ENOENT" |}
  end.

Section Load.
(** JSON values and [JSON.parse], which throws on malformed text. *)
Context {V : Type}.
Variable JSON_parse : string → Completion Error_object V.

(** [readJSON(file, fallback)] of server.js. *)
Definition readJSON (file : File) (fallback : V)
  : Completion Error_object V :=
  try_catch
    (if negb (existsSync file) then Normal fallback
     else raw ←! readFileSync file; JSON_parse raw)
    (fun _ => Normal fallback).

(** [loadSubscriptions()] of the endpoint-keyed server variant; the
    body of the [try] either returns a value or falls through to the
    final [return []]. *)
Variable empty_array : V.

Definition loadSubscriptions (file : File) : Completion Error_object V :=
  returned ←!
    try_catch
      (if existsSync file
       then raw ←! readFileSync file;
            v ←! JSON_parse raw;
            Normal (Some v)
       else Normal None)
      (fun _ => Normal None);
  Normal (default empty_array returned).
End Load.

End Store.

(** ** Dispatch client *)

Module Dispatch.
Import Js.

Record Subscription : Type := {
  endpoint : string;
  keys : string;
}.

Record Payload : Type := {
  title : string;
  body : string;
  url : string;
}.

(** The transport, [webpush.sendNotification]: resolves or rejects. *)
Definition Transport : Type :=
  Subscription → Payload → Completion Thrown unit.

(** What [sendPushSafely] resolves to: [true], [{ removed: true }] or
    [false]. *)
Inductive Send_result : Type :=
| Sent
| Removed
| Failed.

(** [res && res.removed] *)
Definition removed (r : Send_result) : bool :=
  match r with
  | Removed => true
  | _ => false
  end.

Definition gone (err : Thrown) : bool :=
  match err with
  | Falsy => false
  | Object o =>
      strict_eq_number (statusCode o) 410
      || strict_eq_number (statusCode o) 404
  end.

Definition sendPushSafely (webpush : Transport)
    (sub : Subscription) (payload : Payload)
  : Completion Thrown Send_result :=
  try_catch
    (_ ←! webpush sub payload; Normal Sent)
    (fun err => if gone err then Normal Removed else Normal Failed).

End Dispatch.

(** ** Clocks: instants, civil time, and the host's [Date] *)

Module Clock.

(** Wall-clock reading; [month] counts from 1. *)
Record Civil : Type := {
  year : Z; month : Z; day : Z;
  hour : Z; minute : Z; second : Z;
}.

Definition ms_per_second : Z := 1000.
Definition ms_per_minute : Z := 60000.
Definition ms_per_hour : Z := 3600000.
Definition ms_per_day : Z := 86400000.

(** Proleptic Gregorian calendar over day numbers counted from
    1970-01-01. *)
Definition days_from_civil (y m d : Z) : Z :=
  let y' := (if m <=? 2 then y - 1 else y)%Z in
  let era := (y' / 400)%Z in
  let yoe := (y' mod 400)%Z in
  let mp := (if 2 <? m then m - 3 else m + 9)%Z in
  let doy := ((153 * mp + 2) / 5 + d - 1)%Z in
  let doe := (yoe * 365 + yoe / 4 - yoe / 100 + doy)%Z in
  (era * 146097 + doe - 719468)%Z.

Definition civil_from_days (z : Z) : Z * Z * Z :=
  let z' := (z + 719468)%Z in
  let era := (z' / 146097)%Z in
  let doe := (z' mod 146097)%Z in
  let yoe := ((doe - doe / 1460 + doe / 36524 - doe / 146096) / 365)%Z in
  let doy := (doe - (365 * yoe + yoe / 4 - yoe / 100))%Z in
  let mp := ((5 * doy + 2) / 153)%Z in
  let d := (doy - (153 * mp + 2) / 5 + 1)%Z in
  let m := (if mp <? 10 then mp + 3 else mp - 9)%Z in
  let y := (yoe + era * 400)%Z in
  ((if m <=? 2 then y + 1 else y)%Z, m, d).

(** The reading of a clock whose zone is [offset] milliseconds east of
    UTC, at the instant [t] (milliseconds since the epoch). *)
Definition civil_at (offset t : Z) : Civil :=
  let l := (t + offset)%Z in
  let '(y, m, d) := civil_from_days (l / ms_per_day) in
  {| year := y; month := m; day := d;
     hour := (l / ms_per_hour) mod 24;
     minute := (l / ms_per_minute) mod 60;
     second := (l / ms_per_second) mod 60 |}.

(** The instant at which a clock [offset] east of UTC reads [c]. *)
Definition instant_of (offset : Z) (c : Civil) : Z :=
  (days_from_civil (year c) (month c) (day c) * ms_per_day
   + hour c * ms_per_hour + minute c * ms_per_minute
   + second c * ms_per_second - offset)%Z.

(** What the process takes from its environment: the [Date] parser
    ([None] is the invalid date, whose time value is NaN), the local
    clock behind [getMinutes], [getHours], [getDate] and [getMonth], and
    the clocks of the named zones that the cron library consults for
    its [timezone] option. *)
Record Host : Type := {
  Date_parse : string → option Z;
  local_clock : Z → Civil;
  zone_clock : string → Z → Civil;
}.

Definition getMinutes (h : Host) (t : Z) : Z := minute (local_clock h t).
Definition getHours (h : Host) (t : Z) : Z := hour (local_clock h t).
Definition getDate (h : Host) (t : Z) : Z := day (local_clock h t).
(** [getMonth] counts from 0. *)
Definition getMonth (h : Host) (t : Z) : Z := (month (local_clock h t) - 1)%Z.

(** *** A host with fixed offsets

    A process whose local zone is [offset] milliseconds east of UTC,
    with named zones at the offsets given by [zones], and whose [Date]
    reads the date-time form [YYYY-MM-DDTHH:mm:ss] as local time, the
    form the scheduler documents for [launchIso]. *)

Definition number_of (s : string) : option Z :=
  if forallb (fun a => let n := nat_of_ascii a in
                       Nat.leb 48 n && Nat.leb n 57) (list_ascii_of_string s)
  then Some (fold_left (fun acc a => (10 * acc + Z.of_nat (nat_of_ascii a) - 48)%Z)
                       (list_ascii_of_string s) 0%Z)
  else None.

Definition in_range (lo hi : Z) (v : option Z) : option Z :=
  match v with
  | Some z => if (lo <=? z)%Z && (z <=? hi)%Z then Some z else None
  | None => None
  end.

Definition parse_date_time (s : string) : option Civil :=
  if Nat.eqb (String.length s) 19
     && String.eqb (substring 4 1 s) "-" && String.eqb (substring 7 1 s) "-"
     && String.eqb (substring 10 1 s) "T"
     && String.eqb (substring 13 1 s) ":" && String.eqb (substring 16 1 s) ":"
  then
    match number_of (substring 0 4 s),
          in_range 1 12 (number_of (substring 5 2 s)),
          in_range 1 31 (number_of (substring 8 2 s)),
          in_range 0 23 (number_of (substring 11 2 s)),
          in_range 0 59 (number_of (substring 14 2 s)),
          in_range 0 59 (number_of (substring 17 2 s)) with
    | Some y, Some mo, Some d, Some h, Some mi, Some sec =>
        Some {| year := y; month := mo; day := d;
                hour := h; minute := mi; second := sec |}
    | _, _, _, _, _, _ => None
    end
  else None.

Definition fixed_host (offset : Z) (zones : string → Z) : Host :=
  {| Date_parse := fun s => instant_of offset <$> parse_date_time s;
     local_clock := civil_at offset;
     zone_clock := fun tz => civil_at (zones tz) |}.

(** A server running on UTC that knows Nairobi, three hours east. *)
Definition utc_host : Host :=
  fixed_host 0
    (fun tz => if String.eqb tz "Africa/Nairobi" then 3 * ms_per_hour
               else 0)%Z.


End Clock.

(** ** Planner: reading a time of day *)

Module Planner.

(** Texts are held in their UTF-8 encoding. White space and line
    terminators that [parseInt] skips, within the ASCII range: tab, line
    feed, vertical tab, form feed, carriage return and space. *)
Definition is_white_space (a : ascii) : bool :=
  let n := nat_of_ascii a in
  (Nat.leb 9 n && Nat.leb n 13) || Nat.eqb n 32.

(** The no-break space U+00A0, encoded in two bytes. *)
Definition is_wide_space2 (a b : ascii) : bool :=
  Nat.eqb (nat_of_ascii a) 194 && Nat.eqb (nat_of_ascii b) 160.

(** The white space and line terminators encoded in three bytes:
    U+1680, U+2000 to U+200A, U+2028, U+2029, U+202F, U+205F, U+3000 and
    U+FEFF. *)
Definition is_wide_space3 (a b c : ascii) : bool :=
  let x := nat_of_ascii a in
  let y := nat_of_ascii b in
  let z := nat_of_ascii c in
  (Nat.eqb x 225 && Nat.eqb y 154 && Nat.eqb z 128)
  || (Nat.eqb x 226 && Nat.eqb y 128
      && ((Nat.leb 128 z && Nat.leb z 138)
          || Nat.eqb z 168 || Nat.eqb z 169 || Nat.eqb z 175))
  || (Nat.eqb x 226 && Nat.eqb y 129 && Nat.eqb z 159)
  || (Nat.eqb x 227 && Nat.eqb y 128 && Nat.eqb z 128)
  || (Nat.eqb x 239 && Nat.eqb y 187 && Nat.eqb z 191).

Fixpoint skip_white_space (s : string) : string :=
  match s with
  | String a r =>
      if is_white_space a then skip_white_space r
      else
        match r with
        | String b r1 =>
            if is_wide_space2 a b then skip_white_space r1
            else
              match r1 with
              | String c r2 =>
                  if is_wide_space3 a b c then skip_white_space r2 else s
              | EmptyString => s
              end
        | EmptyString => s
        end
  | EmptyString => s
  end.

Definition digit_of (a : ascii) : option Z :=
  let n := nat_of_ascii a in
  if Nat.leb 48 n && Nat.leb n 57 then Some (Z.of_nat n - 48)%Z else None.

(** Value of the longest prefix of decimal digits; [acc] is [None]
    until a digit has been read. *)
Fixpoint digits (acc : option Z) (s : string) : option Z :=
  match s with
  | String a r =>
      match digit_of a with
      | Some d => digits (Some (10 * default 0%Z acc + d)%Z) r
      | None => acc
      end
  | EmptyString => acc
  end.

(** The double nearest to an integer, ties to even: exact below 2^53,
    a multiple of a power of two with a 53-bit quotient beyond. A
    magnitude of 2^1024 or more stands for an infinity. *)
Definition to_double (z : Z) : Z :=
  let a := Z.abs z in
  if (a <? 2 ^ 53)%Z then z
  else
    let e := (Z.log2 a - 52)%Z in
    let q := (a / 2 ^ e)%Z in
    let r := (a mod 2 ^ e)%Z in
    let half := (2 ^ (e - 1))%Z in
    let q' :=
      if (half <? r)%Z || ((r =? half)%Z && Z.odd q) then (q + 1)%Z
      else q in
    (Z.sgn z * (q' * 2 ^ e))%Z.

(** [parseInt(s, 10)]: leading white space, an optional sign, then the
    longest run of digits; [None] is NaN. The result is the Number value
    of the integer read. *)
Definition parseInt (s : string) : option Z :=
  let s1 := skip_white_space s in
  match s1 with
  | String "-" r => (fun z => to_double (- z)) <$> digits None r
  | String "+" r => to_double <$> digits None r
  | _ => to_double <$> digits None s1
  end.

(** [s.split(':')] *)
Fixpoint split_colon (s : string) : list string :=
  match s with
  | EmptyString => [EmptyString]
  | String a r =>
      if Ascii.eqb a ":" then EmptyString :: split_colon r
      else match split_colon r with
           | h :: t => String a h :: t
           | [] => [String a EmptyString]
           end
  end.

(** [Number.isFinite(v)]: false for NaN, for [undefined], and for a
    magnitude that a double rounds to infinity. *)
Definition Number_isFinite (v : option Z) : bool :=
  match v with
  | Some z => (Z.abs z <? 2 ^ 1024 - 2 ^ 970)%Z
  | None => false
  end.

(** [const [hh, mm] = hhmm.split(':').map(s => parseInt(s, 10))]
    followed by the guard of [scheduleFor]; [None] means the entry is
    skipped. A missing second element is [undefined]. *)
Definition parse_hhmm (hhmm : string) : option (Z * Z) :=
  let parts := map parseInt (split_colon hhmm) in
  let hh := mjoin (parts !! 0%nat) in
  let mm := mjoin (parts !! 1%nat) in
  if negb (Number_isFinite hh) || negb (Number_isFinite mm) then None
  else Some (default 0%Z hh, default 0%Z mm).

End Planner.

(** ** Job scheduler: [runtimeJobs], [scheduleFor] and the trigger callbacks *)

Module Scheduler.
Import Js Dispatch Clock Planner.

(** A stored subscription record. Records come from [/api/subscribe] or
    from the persisted file, so every field other than [id] may be
    missing; [dailyTimes] is [None] when it is not an array, and its
    entries are strings such as ["09:00"]. *)
Record Item : Type := {
  id : string;
  subscription : option Subscription;
  launchIso : option string;
  dailyTimes : option (list string);
  timezone : option string;
  meta : string;
  createdAt : Z;
}.

(** [v || d] on an optional string: the empty string is falsy. *)
Definition or_else (v : option string) (d : string) : string :=
  match v with
  | Some s => if String.eqb s EmptyString then d else s
  | None => d
  end.

(** [if (v)] on an optional string. *)
Definition truthy (v : option string) : option string :=
  match v with
  | Some s => if String.eqb s EmptyString then None else Some s
  | None => None
  end.

(** What was handed to [setTimeout] or [cron.schedule]. A timeout armed
    at [now] with [delay] elapses at [due = now + delay]; a cron job
    carries the fields of its expression and its [timezone] option. *)
Inductive Kind : Type :=
| Launch_timer (due : Z)
| Launch_cron (mi h d mo : Z) (tz : string)
| Daily (mm hh : Z) (tz : string).

(** The platform under the scheduler: the host's clocks, and the cron
    library, whose [schedule] either takes an expression with its zone
    or throws. *)
Record Platform : Type := {
  clocks :> Host;
  cron_accepts : Kind → bool;
}.

(** A timer or cron job. Its callback closes over [id] and over the
    record read by [scheduleFor], of which it uses the subscription. *)
Record Trigger : Type := {
  owner : string;
  kind : Kind;
  target : Subscription;
  armed : bool;
}.

(** [runtimeJobs[id]]: handles are positions in the heap of triggers. *)
Record Runtime : Type := {
  launchTimer : option nat;
  launchCron : option nat;
  dailyJobs : list nat;
  lastSentAt : option Z;
}.

(** The process state: the in-memory map, the runtime registry, every
    timer and cron job created so far, the contents last written to
    [subscriptions.json] (writes are taken to succeed), and the calls
    made to the transport, oldest first. *)
Record State : Type := {
  subscriptions : gmap string Item;
  runtimeJobs : gmap string Runtime;
  triggers : list Trigger;
  persisted : gmap string Item;
  outbox : list (Subscription * Payload);
}.

Definition initial (loaded : gmap string Item) : State :=
  {| subscriptions := loaded; runtimeJobs := ∅; triggers := [];
     persisted := loaded; outbox := [] |}.

Definition persistSubscriptions (st : State) : State :=
  {| subscriptions := subscriptions st; runtimeJobs := runtimeJobs st;
     triggers := triggers st; persisted := subscriptions st;
     outbox := outbox st |}.

Definition disarm (t : Trigger) : Trigger :=
  {| owner := owner t; kind := kind t; target := target t;
     armed := false |}.

(** [clearTimeout(h)] and [job.stop()] *)
Definition stop (h : nat) (ts : list Trigger) : list Trigger :=
  alter disarm h ts.

Definition stop_opt (h : option nat) (ts : list Trigger) : list Trigger :=
  match h with
  | Some h => stop h ts
  | None => ts
  end.

(** The teardown shared by [scheduleFor] and [/api/unsubscribe]: clear
    the launch timer, stop the launch cron, stop each daily job. *)
Definition clear_jobs (old : Runtime) (ts : list Trigger) : list Trigger :=
  foldl (fun acc h => stop h acc)
        (stop_opt (launchCron old) (stop_opt (launchTimer old) ts))
        (dailyJobs old).

Definition launch_payload : Payload :=
  {| title := "Helalink is launching today!";
     body := "Launch is happening — open Helalink for priority onboarding & bonuses.";
     url := "/" |}.

Definition daily_payload : Payload :=
  {| title := "Helalink — Daily Reminder";
     body := "Quick reminder from Helalink — check onboarding tips & launch updates.";
     url := "/" |}.

Definition max_delay : Z := 2147483647.

Definition fresh_runtime : Runtime :=
  {| launchTimer := None; launchCron := None; dailyJobs := [];
     lastSentAt := None |}.

Definition new_trigger (id : string) (k : Kind) (sub : Subscription)
  : Trigger :=
  {| owner := id; kind := k; target := sub; armed := true |}.

(** Step 1 of [scheduleFor]: the one-off launch push. *)
Definition schedule_launch (env : Platform) (now : Z) (id : string)
    (sub : Subscription) (tz : string) (iso : option string)
    (acc : Runtime * list Trigger) : Attempt (Runtime * list Trigger) :=
  let '(r, ts) := acc in
  match truthy iso ≫= Date_parse env with
  | None => Finished acc
  | Some launchDate =>
      let delay := (launchDate - now)%Z in
      if (0 <? delay)%Z && (delay <? max_delay)%Z then
        Finished
          ({| launchTimer := Some (length ts); launchCron := launchCron r;
              dailyJobs := dailyJobs r; lastSentAt := lastSentAt r |},
           ts ++ [new_trigger id (Launch_timer (now + delay)) sub])
      else if (0 <? delay)%Z then
        let expr :=
          Launch_cron (getMinutes env launchDate) (getHours env launchDate)
                      (getDate env launchDate)
                      (getMonth env launchDate + 1) tz in
        if cron_accepts env expr then
          Finished
            ({| launchTimer := launchTimer r; launchCron := Some (length ts);
                dailyJobs := dailyJobs r; lastSentAt := lastSentAt r |},
             ts ++ [new_trigger id expr sub])
        else Interrupted acc
      else Finished acc
  end.

(** One turn of the [forEach] over [item.dailyTimes]. *)
Definition schedule_one_daily (env : Platform) (id : string)
    (sub : Subscription) (tz : string) (acc : Runtime * list Trigger)
    (hhmm : string) : Attempt (Runtime * list Trigger) :=
  let '(r, ts) := acc in
  match parse_hhmm hhmm with
  | None => Finished acc
  | Some (hh, mm) =>
      if cron_accepts env (Daily mm hh tz) then
        Finished
          ({| launchTimer := launchTimer r; launchCron := launchCron r;
              dailyJobs := dailyJobs r ++ [length ts];
              lastSentAt := lastSentAt r |},
           ts ++ [new_trigger id (Daily mm hh tz) sub])
      else Interrupted acc
  end.

(** Step 2 of [scheduleFor]: the recurring daily pushes. *)
Definition schedule_daily (env : Platform) (id : string)
    (sub : Subscription) (tz : string) (times : option (list string))
    (acc : Runtime * list Trigger) : Attempt (Runtime * list Trigger) :=
  match times with
  | Some l => for_each (schedule_one_daily env id sub tz) acc l
  | None => Finished acc
  end.

Definition with_jobs (st : State) (rj : gmap string Runtime)
    (ts : list Trigger) : State :=
  {| subscriptions := subscriptions st; runtimeJobs := rj; triggers := ts;
     persisted := persisted st; outbox := outbox st |}.

(** [if (runtimeJobs[id]) { ... }]: the triggers after the teardown of
    the entry of [id], if there is one. *)
Definition cleared (id : string) (st : State) : list Trigger :=
  match runtimeJobs st !! id with
  | Some old => clear_jobs old (triggers st)
  | None => triggers st
  end.

(** [scheduleFor(id)], run when the clock reads [now]. A key that is
    not an own property of either map reads as a value without the
    fields looked at here, so it behaves as an absent one. The entry of
    [id] is updated in place, so a throw leaves the jobs registered up
    to then. *)
Definition scheduleFor (env : Platform) (now : Z) (id : string) (st : State)
  : Attempt State :=
  let ts0 := cleared id st in
  let put (acc : Runtime * list Trigger) : State :=
    with_jobs st (<[id := fst acc]> (runtimeJobs st)) (snd acc) in
  match subscriptions st !! id with
  | Some item =>
      match subscription item with
      | Some sub =>
          let tz := or_else (timezone item) "Africa/Nairobi" in
          match schedule_launch env now id sub tz (launchIso item)
                  (fresh_runtime, ts0) with
          | Finished acc1 =>
              match schedule_daily env id sub tz (dailyTimes item) acc1 with
              | Finished acc2 => Finished (put acc2)
              | Interrupted acc2 => Interrupted (put acc2)
              end
          | Interrupted acc1 => Interrupted (put acc1)
          end
      | None => Finished (put (fresh_runtime, ts0))
      end
  | None => Finished (put (fresh_runtime, ts0))
  end.

(** [try { scheduleFor(id); } catch (e) { console.error(...) }], the way
    both callers run it. *)
Definition try_scheduleFor (env : Platform) (now : Z) (id : string)
    (st : State) : State :=
  reached (scheduleFor env now id st).

(** [rescheduleAll()]: every key of the map in turn, each call reading
    the clock for itself. *)
Definition rescheduleAll (env : Platform) (now : string → Z) (st : State)
  : State :=
  foldl (fun acc id => try_scheduleFor env (now id) id acc) st
        (map fst (map_to_list (subscriptions st))).

(** [runtimeJobs[id].lastSentAt = ...]; the assignment throws when there
    is no entry. *)
Definition touch (id : string) (now : Z) (st : State) : option State :=
  match runtimeJobs st !! id with
  | Some r =>
      Some (with_jobs st
              (<[id := {| launchTimer := launchTimer r;
                          launchCron := launchCron r;
                          dailyJobs := dailyJobs r;
                          lastSentAt := Some now |}]> (runtimeJobs st))
              (triggers st))
  | None => None
  end.

(** [delete subscriptions[id]; persistSubscriptions();] *)
Definition forget (id : string) (st : State) : State :=
  persistSubscriptions
    {| subscriptions := delete id (subscriptions st);
       runtimeJobs := runtimeJobs st; triggers := triggers st;
       persisted := persisted st; outbox := outbox st |}.

Definition stop_job (h : nat) (st : State) : State :=
  with_jobs st (runtimeJobs st) (stop h (triggers st)).

Definition record_send (sub : Subscription) (p : Payload) (st : State)
  : State :=
  {| subscriptions := subscriptions st; runtimeJobs := runtimeJobs st;
     triggers := triggers st; persisted := persisted st;
     outbox := outbox st ++ [(sub, p)] |}.

(** The callback of trigger [h], run to completion with the transport
    as it answers at that moment. A disarmed trigger does not run. A
    timeout runs once; a cron job stays armed until it is stopped. A
    callback that throws leaves the state it had reached. *)
Definition fire (webpush : Transport) (now : Z) (h : nat) (st : State)
  : State :=
  match triggers st !! h with
  | Some t =>
      if armed t then
        match kind t with
        | Launch_timer _ =>
            let st1 := record_send (target t) launch_payload (stop_job h st) in
            match sendPushSafely webpush (target t) launch_payload with
            | Normal res =>
                match touch (owner t) now st1 with
                | Some st2 =>
                    if removed res then forget (owner t) st2 else st2
                | None => st1
                end
            | Throw _ => st1
            end
        | Launch_cron _ _ _ _ _ =>
            let st1 := record_send (target t) launch_payload st in
            match sendPushSafely webpush (target t) launch_payload with
            | Normal res =>
                stop_job h
                  (if removed res then forget (owner t) st1 else st1)
            | Throw _ => st1
            end
        | Daily _ _ _ =>
            let st1 := record_send (target t) daily_payload st in
            match sendPushSafely webpush (target t) daily_payload with
            | Normal res =>
                match touch (owner t) now st1 with
                | Some st2 =>
                    if removed res then stop_job h (forget (owner t) st2)
                    else st2
                | None => st1
                end
            | Throw _ => st1
            end
        end
      else st
  | None => st
  end.

(** When a trigger comes due. A timeout elapses at its instant; a cron
    job matches the start of every minute whose reading, on the clock of
    its zone, agrees with the fields of its expression. *)
Definition due_at (host : Host) (k : Kind) (t : Z) : bool :=
  match k with
  | Launch_timer due => (t =? due)%Z
  | Launch_cron mi h d mo tz =>
      let c := zone_clock host tz t in
      (second c =? 0)%Z && (minute c =? mi)%Z && (hour c =? h)%Z
      && (day c =? d)%Z && (month c =? mo)%Z
  | Daily mm hh tz =>
      let c := zone_clock host tz t in
      (second c =? 0)%Z && (minute c =? mm)%Z && (hour c =? hh)%Z
  end.

(** *** Views of the heap used in the statements *)

Definition is_launch (k : Kind) : bool :=
  match k with
  | Daily _ _ _ => false
  | _ => true
  end.

Definition daily_time (k : Kind) : option (Z * Z) :=
  match k with
  | Daily mm hh _ => Some (hh, mm)
  | _ => None
  end.

Definition live_for (id : string) (t : Trigger) : bool :=
  armed t && String.eqb (owner t) id.

(** The armed triggers of [id], oldest first. *)
Definition armed_for (id : string) (st : State) : list Trigger :=
  filter (fun t => live_for id t = true) (triggers st).

Definition armed_launch (id : string) (st : State) : list Trigger :=
  filter (fun t => is_launch (kind t) = true) (armed_for id st).

(** Hour and minute of each armed daily trigger of [id]. *)
Definition armed_daily (id : string) (st : State) : list (Z * Z) :=
  omap (fun t => daily_time (kind t)) (armed_for id st).

Definition handles (r : Runtime) : list nat :=
  option_list (launchTimer r) ++ option_list (launchCron r) ++ dailyJobs r.

(** *** The plan that [scheduleFor] carries out

    Read off its two steps: a launch occurrence is planned when the
    parsed launch date lies after [now], as a timeout below the timer
    limit and as a dated cron job at or beyond it; every daily time that
    parses is planned as a daily cron job. *)

Definition planned_launch (host : Host) (now : Z) (tz : string)
    (iso : option string) : option Kind :=
  match truthy iso ≫= Date_parse host with
  | Some launchDate =>
      if (now <? launchDate)%Z then
        Some (if (launchDate - now <? max_delay)%Z
              then Launch_timer launchDate
              else Launch_cron (getMinutes host launchDate)
                               (getHours host launchDate)
                               (getDate host launchDate)
                               (getMonth host launchDate + 1) tz)
      else None
  | None => None
  end.

Definition daily_kind (tz : string) (t : Z * Z) : Kind :=
  Daily (snd t) (fst t) tz.

Definition planned_daily (tz : string) (times : option (list string))
  : list Kind :=
  daily_kind tz <$> omap parse_hhmm (default [] times).

Definition plan (host : Host) (now : Z) (item : Item) : list Kind :=
  let tz := or_else (timezone item) "Africa/Nairobi" in
  option_list (planned_launch host now tz (launchIso item))
  ++ planned_daily tz (dailyTimes item).

(** [setTimeout] takes any delay; a cron job is taken or refused by the
    library. *)
Definition accepts (env : Platform) (k : Kind) : bool :=
  match k with
  | Launch_timer _ => true
  | _ => cron_accepts env k
  end.

(** The part of a plan that gets armed: everything before the first
    expression that the library refuses. *)
Fixpoint until_rejected (p : Kind → bool) (ks : list Kind) : list Kind :=
  match ks with
  | [] => []
  | k :: ks' => if p k then k :: until_rejected p ks' else []
  end.


Definition planned_triggers (env : Platform) (now : Z) (id : string)
    (st : State) : list Trigger :=
  match subscriptions st !! id with
  | Some item =>
      match subscription item with
      | Some sub =>
          (fun k => new_trigger id k sub)
            <$> until_rejected (accepts env) (plan env now item)
      | None => []
      end
  | None => []
  end.

(** [acc'] is [acc] with the kinds [ks] armed for [id]: the new
    triggers are appended to the heap and their handles, and no others,
    are added to the entry. *)
Definition extends (id : string) (sub : Subscription) (ks : list Kind)
    (acc acc' : Runtime * list Trigger) : Prop :=
  snd acc' = snd acc ++ ((fun k => new_trigger id k sub) <$> ks)
  ∧ ∀ h, h ∈ handles (fst acc')
         ↔ h ∈ handles (fst acc)
           ∨ (length (snd acc) ≤ h < length (snd acc) + length ks)%nat.

(** What a teardown over the handles [hs] leaves at position [i]. *)
Definition stopped_by (hs : list nat) (i : nat) (t : Trigger) : Trigger :=
  if bool_decide (i ∈ hs) then disarm t else t.

(** *** Well-formed states

    Every armed trigger is listed in the runtime entry of its owner, and
    every handle listed in an entry designates a trigger of that owner. *)

Definition tracked (st : State) : Prop :=
  ∀ h t, triggers st !! h = Some t → armed t = true →
    ∃ r, runtimeJobs st !! owner t = Some r ∧ h ∈ handles r.

Definition owned (st : State) : Prop :=
  ∀ id r h, runtimeJobs st !! id = Some r → h ∈ handles r →
    ∃ t, triggers st !! h = Some t ∧ owner t = id.

Definition consistent (st : State) : Prop := tracked st ∧ owned st.

End Scheduler.

(** ** Request handlers *)

Module Api.
Import Js Dispatch Clock Scheduler.

(** The [dailyTimes] member of a subscribe body, as [Array.isArray]
    sees it. *)
Inductive Daily_field : Type :=
| Absent
| Not_array
| Array (l : list string).

Record Subscribe_body : Type := {
  subscription_field : option Subscription;
  launchIso_field : option string;
  dailyTimes_field : Daily_field;
  timezone_field : option string;
  meta_field : option string;
}.

(** The answer sent back: HTTP status and the members of the JSON
    body. *)
Record Response : Type := {
  status : Z;
  success : option bool;
  assigned : option string;
  error : option string;
}.

Definition default_daily_times : list string := ["09:00"; "13:00"; "19:00"].

(** [subscription && subscription.endpoint] *)
Definition usable (s : option Subscription) : option Subscription :=
  match s with
  | Some sub =>
      if String.eqb (endpoint sub) EmptyString then None else Some sub
  | None => None
  end.

(** [POST /api/subscribe]; [uuid] is the value of [uuidv4()]. *)
Definition subscribe (env : Platform) (uuid : string) (now : Z)
    (req : Subscribe_body) (st : State) : Response * State :=
  match usable (subscription_field req) with
  | None =>
      ({| status := 400; success := None; assigned := None;
          error := Some "Invalid subscription" |}, st)
  | Some sub =>
      let item :=
        {| id := uuid;
           subscription := Some sub;
           launchIso := truthy (launchIso_field req);
           dailyTimes :=
             Some (match dailyTimes_field req with
                   | Array l => l
                   | _ => default_daily_times
                   end);
           timezone := Some (or_else (timezone_field req) "Africa/Nairobi");
           meta := default "{}" (truthy (meta_field req));
           createdAt := now |} in
      let st1 :=
        persistSubscriptions
          {| subscriptions := <[uuid := item]> (subscriptions st);
             runtimeJobs := runtimeJobs st; triggers := triggers st;
             persisted := persisted st; outbox := outbox st |} in
      ({| status := 200; success := Some true; assigned := Some uuid;
          error := None |},
       try_scheduleFor env now uuid st1)
  end.

(** Names every object inherits from [Object.prototype]: a read such
    as [subscriptions[id]] finds a truthy value under them even when
    the map has no such key of its own. *)
Definition Object_prototype_names : list string :=
  ["constructor"; "__proto__"; "hasOwnProperty"; "isPrototypeOf";
   "propertyIsEnumerable"; "toLocaleString"; "toString"; "valueOf";
   "__defineGetter__"; "__defineSetter__"; "__lookupGetter__";
   "__lookupSetter__"].

Definition inherited (k : string) : bool :=
  bool_decide (k ∈ Object_prototype_names).

Record Unsubscribe_request : Type := {
  body_id : option string;
  query_id : option string;
}.

(** [req.body.id || req.query.id] *)
Definition requested_id (req : Unsubscribe_request) : option string :=
  match truthy (body_id req) with
  | Some s => Some s
  | None => truthy (query_id req)
  end.

Definition plain (ok : bool) : Response :=
  {| status := 200; success := Some ok; assigned := None; error := None |}.

(** [POST /api/unsubscribe]. The guard reads [subscriptions[id]], which
    is truthy for a stored record and for an inherited name. The cleanup
    of the runtime entry and both [delete]s change nothing when the key
    is not there. *)
Definition unsubscribe (req : Unsubscribe_request) (st : State)
  : Response * State :=
  match requested_id req with
  | None => (plain false, st)
  | Some id =>
      if bool_decide (is_Some (subscriptions st !! id)) || inherited id then
        let st1 :=
          with_jobs st (delete id (runtimeJobs st)) (cleared id st) in
        (plain true, forget id st1)
      else (plain false, st)
  end.


(** The request names no stored record: no id at all, or an id that is
    not a key of the map. *)
Definition unknown_to (st : State) (req : Unsubscribe_request) : Prop :=
  match requested_id req with
  | Some id => subscriptions st !! id = None
  | None => True
  end.

End Api.

(** ** The endpoint-keyed server variant: [/api/unsubscribe] over a list *)

Module Endpoint_variant.
Import Dispatch Scheduler Api.

(** The in-memory cache and the list last written to the file. *)
Record Cache : Type := {
  cached : list Subscription;
  saved : list Subscription;
}.

(** The request body: [endpoint] and [subscription.endpoint]; the body
    itself may be missing. *)
Record Body : Type := {
  endpoint_field : option string;
  nested_endpoint : option string;
}.

(** [payload && (payload.endpoint ||
      (payload.subscription && payload.subscription.endpoint))] *)
Definition requested_endpoint (payload : option Body) : option string :=
  match payload with
  | Some b =>
      match truthy (endpoint_field b) with
      | Some e => Some e
      | None => truthy (nested_endpoint b)
      end
  | None => None
  end.

Definition unsubscribe (payload : option Body) (c : Cache)
  : Response * Cache :=
  match requested_endpoint payload with
  | None =>
      ({| status := 400; success := Some false; assigned := None;
          error := Some "Missing endpoint" |}, c)
  | Some e =>
      let kept :=
        filter (fun s => negb (String.eqb (endpoint s) e) = true)
               (cached c) in
      ({| status := 200; success := Some true; assigned := None;
          error := None |},
       {| cached := kept;
          saved := if Nat.eqb (length kept) (length (cached c))
                   then saved c else kept |})
  end.

(** The request names no cached subscription: no endpoint at all, or an
    endpoint that no cached subscription has. *)
Definition unknown_to (c : Cache) (payload : option Body) : Prop :=
  match requested_endpoint payload with
  | Some e => Forall (fun s => endpoint s ≠ e) (cached c)
  | None => True
  end.

End Endpoint_variant.

(** ** The running server *)

Module Server.
Import Dispatch Clock Scheduler Api.

(** What can happen once the server listens: a request arrives, or an
    armed trigger comes due and its callback runs. *)
Inductive Event : Type :=
| Subscribes (uuid : string) (now : Z) (req : Subscribe_body)
| Unsubscribes (req : Unsubscribe_request)
| Fires (webpush : Transport) (now : Z) (h : nat).

Definition step (env : Platform) (st : State) (e : Event) : State :=
  match e with
  | Subscribes uuid now req => snd (subscribe env uuid now req st)
  | Unsubscribes req => snd (unsubscribe req st)
  | Fires webpush now h => fire webpush now h st
  end.

(** Start-up: the map is loaded, then the [listen] callback runs
    [rescheduleAll]. *)
Definition boot (env : Platform) (now : string → Z)
    (loaded : gmap string Item) : State :=
  rescheduleAll env now (initial loaded).

Definition run (env : Platform) (st : State) (es : list Event) : State :=
  foldl (step env) st es.

Definition reachable (env : Platform) (st : State) : Prop :=
  ∃ now loaded es, st = run env (boot env now loaded) es.

End Server.

(** ** A running example *)

Module Scenario.
Import Js Dispatch Clock Scheduler Api.

(** A cron library that takes the expressions whose fields are in
    range, as cron defines them, in any zone. *)
Definition in_range_fields (k : Kind) : bool :=
  match k with
  | Launch_timer _ => true
  | Launch_cron mi h d mo _ =>
      (0 <=? mi)%Z && (mi <=? 59)%Z && (0 <=? h)%Z && (h <=? 23)%Z
      && (1 <=? d)%Z && (d <=? 31)%Z && (1 <=? mo)%Z && (mo <=? 12)%Z
  | Daily mm hh _ =>
      (0 <=? mm)%Z && (mm <=? 59)%Z && (0 <=? hh)%Z && (hh <=? 23)%Z
  end.

(** A server on UTC with such a library. *)
Definition utc_server : Platform :=
  {| clocks := utc_host; cron_accepts := in_range_fields |}.

Definition browser : Subscription :=
  {| endpoint := "https://push.example/device-1"; keys := "p256dh+auth" |}.

(** The body that the site's own page posts. *)
Definition site_request : Subscribe_body :=
  {| subscription_field := Some browser;
     launchIso_field := Some "2025-09-13T00:00:00";
     dailyTimes_field := Array ["09:00"; "13:00"; "19:00"];
     timezone_field := Some "Africa/Nairobi";
     meta_field := Some "site" |}.

(** A body with nothing but the subscription. *)
Definition bare_request : Subscribe_body :=
  {| subscription_field := Some browser;
     launchIso_field := None;
     dailyTimes_field := Absent;
     timezone_field := None;
     meta_field := None |}.

(** Midnight UTC on 3 September 2025, ten days before the launch. *)
Definition early_september : Z :=
  instant_of 0 {| year := 2025; month := 9; day := 3;
                  hour := 0; minute := 0; second := 0 |}.

(** Midnight UTC on 14 September 2025, a day after the launch. *)
Definition mid_september : Z :=
  instant_of 0 {| year := 2025; month := 9; day := 14;
                  hour := 0; minute := 0; second := 0 |}.

Definition site_item : Item :=
  {| id := "u1"; subscription := Some browser;
     launchIso := Some "2025-09-13T00:00:00";
     dailyTimes := Some ["09:00"; "13:00"; "19:00"];
     timezone := Some "Africa/Nairobi"; meta := "site";
     createdAt := early_september |}.

(** A record as a hand-edited file may hold it: the middle daily time
    does not parse. *)
Definition edited_item : Item :=
  {| id := "u2"; subscription := Some browser;
     launchIso := None;
     dailyTimes := Some ["09:00"; "noon"; "19:00"];
     timezone := Some "Africa/Nairobi"; meta := "site";
     createdAt := early_september |}.


(** A record whose second daily time parses but names no hour of the
    day. *)
Definition late_item : Item :=
  {| id := "u4"; subscription := Some browser;
     launchIso := None;
     dailyTimes := Some ["09:00"; "24:00"; "19:00"];
     timezone := Some "Africa/Nairobi"; meta := "site";
     createdAt := early_september |}.

Definition loaded : gmap string Item :=
  <["u1" := site_item]> (<["u2" := edited_item]> ∅).

(** The state after the site's page has subscribed on a fresh server. *)
Definition subscribed : State :=
  snd (subscribe utc_server "u1" early_september site_request (initial ∅)).

(** A transport that answers every send with 410 Gone. *)
Definition gone_410 : Transport :=
  fun _ _ => Throw (Object {| statusCode := Number 410; message := "Gone" |}).

(** Midnight UTC on 1 August 2025, more than 24.8 days before the
    launch. *)
Definition early_august : Z :=
  instant_of 0 {| year := 2025; month := 8; day := 1;
                  hour := 0; minute := 0; second := 0 |}.

(** What the clocks read at the launch. *)
Definition launch_reading : Civil :=
  {| year := 2025; month := 9; day := 13;
     hour := 0; minute := 0; second := 0 |}.

(** The same subscription made on 1 August. *)
Definition subscribed_early : State :=
  snd (subscribe utc_server "u1" early_august site_request (initial ∅)).

(** A cache of the endpoint-keyed variant holding one subscription. *)
Definition cache : Endpoint_variant.Cache :=
  {| Endpoint_variant.cached := [browser];
     Endpoint_variant.saved := [browser] |}.

End Scenario.

(** ** The admin and health routes of [server.js] *)

Module Admin.
Import Js Dispatch Clock Scheduler Api.

Definition test_payload : Payload :=
  {| title := "Helalink Test";
     body := "This is a test notification from Helalink";
     url := "/" |}.

(** What [POST /api/admin/sendTest] answers: the text 'Invalid id', a
    redirect to the admin page, or nothing when the handler rejects. *)
Inductive Page : Type :=
| Invalid_id
| Redirect_admin
| Unhandled.

(** [POST /api/admin/sendTest]. The guard reads [subscriptions[id]] as
    [/api/unsubscribe] does. The result of [sendPushSafely] is dropped.
    A record without a subscription, or an inherited name, leaves
    nothing to send to. *)
Definition sendTest (webpush : Transport) (id : option string) (st : State)
  : Page * State :=
  match truthy id with
  | None => (Invalid_id, st)
  | Some k =>
      match subscriptions st !! k with
      | Some item =>
          match subscription item with
          | Some sub =>
              let st1 := record_send sub test_payload st in
              match sendPushSafely webpush sub test_payload with
              | Normal _ => (Redirect_admin, st1)
              | Throw _ => (Unhandled, st1)
              end
          | None => (Redirect_admin, st)
          end
      | None => if inherited k then (Redirect_admin, st) else (Invalid_id, st)
      end
  end.

(** [GET /api/health]: the [subscriptions] member of the answer,
    [Object.keys(subscriptions).length]. *)
Definition health (st : State) : nat := size (subscriptions st).

(** One row of the table of [GET /admin]: the members of a list entry
    that the page renders. The list also computes an [endpoint] member,
    cut to 80 characters, which the page uses nowhere. *)
Record Row : Type := {
  row_id : string;
  row_createdAt : Z;
  row_timezone : option string;
  row_launchIso : option string;
  row_dailyTimes : option (list string);
}.

Definition row_of (item : Item) : Row :=
  {| row_id := id item; row_createdAt := createdAt item;
     row_timezone := timezone item;
     row_launchIso := launchIso item; row_dailyTimes := dailyTimes item |}.

(** [Object.values(subscriptions).map(...)] *)
Definition admin_list (st : State) : list Row :=
  row_of <$> map snd (map_to_list (subscriptions st)).

End Admin.

(** ** The endpoint-keyed server variant: subscribing and pruning *)

Module Endpoint_server.
Import Js Dispatch Api Endpoint_variant.

(** A subscription as it arrives in a request body. *)
Record Raw_keys : Type := {
  p256dh : Prop_value;
  auth : Prop_value;
}.

Record Raw_subscription : Type := {
  raw_endpoint : Prop_value;
  raw_keys : option Raw_keys;
}.

(** [typeof v === 'string'] *)
Definition is_text (v : Prop_value) : bool :=
  match v with
  | Text _ => true
  | _ => false
  end.

Definition text_of (v : Prop_value) : string :=
  match v with
  | Text s => s
  | _ => EmptyString
  end.

Definition isValidSubscription (obj : option Raw_subscription) : bool :=
  match obj with
  | Some o =>
      is_text (raw_endpoint o)
      && match raw_keys o with
         | Some k => is_text (p256dh k) && is_text (auth k)
         | None => false
         end
  | None => false
  end.

(** A valid subscription as the list holds it; the two keys travel
    together. *)
Definition stored (o : Raw_subscription) : Subscription :=
  {| endpoint := text_of (raw_endpoint o);
     keys := match raw_keys o with
             | Some k =>
                 String.append (text_of (p256dh k))
                   (String.append " " (text_of (auth k)))
             | None => EmptyString
             end |}.

(** The [subscription] member of a subscribe body: falsy, a truthy
    value that is not an object, or an object. *)
Inductive Member : Type :=
| Missing
| Not_an_object
| Given (o : Raw_subscription).

(** The body of a subscribe request: its [subscription] member, and the
    body read as a subscription itself. *)
Record Subscribe_payload : Type := {
  wrapped : Member;
  bare : Raw_subscription;
}.

(** [(payload && payload.subscription) ? payload.subscription : payload];
    [None] is a value that is not an object. *)
Definition selected (payload : option Subscribe_payload)
  : option Raw_subscription :=
  match payload with
  | Some b =>
      match wrapped b with
      | Given s => Some s
      | Not_an_object => None
      | Missing => Some (bare b)
      end
  | None => None
  end.

(** [saveSubscriptions(list)]: a failed write is logged and changes
    nothing. *)
Definition saveSubscriptions (writable : bool) (l : list Subscription)
    (c : Cache) : Cache :=
  {| cached := cached c; saved := if writable then l else saved c |}.

(** [subscriptions = l] *)
Definition assign (l : list Subscription) (c : Cache) : Cache :=
  {| cached := l; saved := saved c |}.

(** [POST /api/subscribe] of the variant. *)
Definition subscribe (writable : bool) (payload : option Subscribe_payload)
    (c : Cache) : Response * Cache :=
  match selected payload with
  | Some o =>
      if isValidSubscription (Some o) then
        let sub := stored o in
        ({| status := 201; success := Some true;
            assigned := Some (endpoint sub); error := None |},
         if existsb (fun s => String.eqb (endpoint s) (endpoint sub))
                    (cached c)
         then c
         else saveSubscriptions writable (cached c ++ [sub])
                (assign (cached c ++ [sub]) c))
      else
        ({| status := 400; success := Some false; assigned := None;
            error := Some "Invalid subscription object" |}, c)
  | None =>
      ({| status := 400; success := Some false; assigned := None;
          error := Some "Invalid subscription object" |}, c)
  end.

(** [POST /api/unsubscribe] of the variant, with the write that may
    fail. *)
Definition unsubscribe (writable : bool) (payload : option Body) (c : Cache)
  : Response * Cache :=
  match requested_endpoint payload with
  | None =>
      ({| status := 400; success := Some false; assigned := None;
          error := Some "Missing endpoint" |}, c)
  | Some e =>
      let kept :=
        filter (fun s => negb (String.eqb (endpoint s) e) = true)
               (cached c) in
      ({| status := 200; success := Some true; assigned := None;
          error := None |},
       if Nat.eqb (length kept) (length (cached c))
       then assign kept c
       else saveSubscriptions writable kept (assign kept c))
  end.

(** What the transport may reject with: [null] or [undefined], some
    other value that is not an object, or an error object. *)
Inductive Rejection : Type :=
| Nullish
| Plain_value
| Error (o : Error_object).

Definition Transport : Type :=
  Subscription → Payload → Completion Rejection unit.

(** What the callback of [subscriptions.map] resolves to. *)
Record Report : Type := {
  reported : string;
  ok : bool;
  remove : bool;
}.

(** The [TypeError] of a property read on [null] or [undefined]; the
    wording of its message is the engine's. *)
Definition type_error : Error_object :=
  {| statusCode := Undefined;
     message := "Cannot read properties of null" |}.

(** One send with its [catch]: the handler reads [err.message] when
    [err && err.statusCode] is falsy, which throws on [null] and
    [undefined]. *)
Definition report (webpush : Transport) (payload : Payload)
    (sub : Subscription) : Completion Error_object Report :=
  match webpush sub payload with
  | Normal _ =>
      Normal {| reported := endpoint sub; ok := true; remove := false |}
  | Throw Nullish => Throw type_error
  | Throw Plain_value =>
      Normal {| reported := endpoint sub; ok := false; remove := false |}
  | Throw (Error o) =>
      Normal {| reported := endpoint sub; ok := false;
                remove := strict_eq_number (statusCode o) 410
                          || strict_eq_number (statusCode o) 404 |}
  end.

(** [Promise.all]: every result, or the first rejection. *)
Fixpoint all_of {E A} (l : list (Completion E A)) : Completion E (list A) :=
  match l with
  | [] => Normal []
  | c :: l' =>
      match c with
      | Normal a =>
          match all_of l' with
          | Normal r => Normal (a :: r)
          | Throw e => Throw e
          end
      | Throw e => Throw e
      end
  end.

(** [new Set(results.filter(r => r.remove).map(r => r.endpoint))] *)
Definition toRemove (results : list Report) : list string :=
  reported <$> filter (fun r => remove r = true) results.

(** [sendCountdownNotification()], with the message already built. *)
Definition sendCountdownNotification (webpush : Transport)
    (payload : Payload) (writable : bool) (c : Cache)
  : Completion Error_object Cache :=
  match cached c with
  | [] => Normal c
  | _ =>
      match all_of (report webpush payload <$> cached c) with
      | Normal results =>
          match toRemove results with
          | [] => Normal c
          | gone_endpoints =>
              let kept :=
                filter (fun s => endpoint s ∉ gone_endpoints) (cached c) in
              Normal (saveSubscriptions writable kept (assign kept c))
          end
      | Throw e => Throw e
      end
  end.

(** *** Views of the transport used in the statements *)

(** The transport rejects the send to [sub] with status 410 or 404. *)
Definition answered_gone (webpush : Transport) (payload : Payload)
    (sub : Subscription) : bool :=
  match webpush sub payload with
  | Throw (Error o) =>
      strict_eq_number (statusCode o) 410
      || strict_eq_number (statusCode o) 404
  | _ => false
  end.

(** The transport rejects the send to [sub] with [null] or
    [undefined]. *)
Definition rejected_nullish (webpush : Transport) (payload : Payload)
    (sub : Subscription) : bool :=
  match webpush sub payload with
  | Throw Nullish => true
  | _ => false
  end.

End Endpoint_server.

(** ** The countdown of the in-memory server variant *)

Module Countdown.
Import Clock.

(** The host with the [Date] constructor:
    [new Date(year, monthIndex, day).getTime()]. *)
Record Calendar : Type := {
  clock :> Host;
  Date_of : Z → Z → Z → Z;
}.

Definition getFullYear (h : Host) (t : Z) : Z := year (local_clock h t).

(** [Math.ceil(a / b)] for a positive [b]; the quotient of two such
    integers, a few hundred days apart at most, is far from the next
    integer by more than a double's rounding, so the integer ceiling is
    what the code computes. *)
Definition ceil_div (a b : Z) : Z := (- ((- a) / b))%Z.

Record Days : Type := {
  days : Z;
  targetDate : Z;
  isToday : bool;
}.

(** [getDaysUntilSeptember13()] when the clock reads [today];
    [targetDate] is kept as the instant that [toDateString] prints. *)
Definition getDaysUntilSeptember13 (h : Calendar) (today : Z) : Days :=
  let currentYear := getFullYear h today in
  let target0 := Date_of h currentYear 8 13 in
  let target :=
    if (target0 <? today)%Z then Date_of h (currentYear + 1) 8 13
    else target0 in
  let timeDiff := (target - today)%Z in
  let daysDiff := ceil_div timeDiff (1000 * 3600 * 24) in
  {| days := daysDiff; targetDate := target;
     isToday := (daysDiff =? 0)%Z |}.

(** A calendar over a host with a fixed offset. *)
Definition fixed_calendar (offset : Z) (zones : string → Z) : Calendar :=
  {| clock := fixed_host offset zones;
     Date_of := fun y m d =>
       instant_of offset {| year := y; month := m + 1; day := d;
                            hour := 0; minute := 0; second := 0 |} |}.

End Countdown.

(** ** A view of daily-time texts used in the statements *)

Module Daily_text.

(** The text holds no colon. *)
Fixpoint colon_free (s : string) : bool :=
  match s with
  | EmptyString => true
  | String a r => negb (Ascii.eqb a ":") && colon_free r
  end.

End Daily_text.

(** ** Further example values *)

Module Examples.
Import Js Dispatch Clock Scheduler Api Endpoint_variant.

Definition device : Endpoint_server.Raw_subscription :=
  {| Endpoint_server.raw_endpoint := Text "https://push.example/device-2";
     Endpoint_server.raw_keys :=
       Some {| Endpoint_server.p256dh := Text "BPub";
               Endpoint_server.auth := Text "secret" |} |}.

(** A subscription whose endpoint is the empty string. *)
Definition nameless : Endpoint_server.Raw_subscription :=
  {| Endpoint_server.raw_endpoint := Text EmptyString;
     Endpoint_server.raw_keys :=
       Some {| Endpoint_server.p256dh := Text "BPub";
               Endpoint_server.auth := Text "secret" |} |}.

(** The body that the page of this variant posts: the subscription
    itself. *)
Definition raw_body : Endpoint_server.Subscribe_payload :=
  {| Endpoint_server.wrapped := Endpoint_server.Missing;
     Endpoint_server.bare := device |}.

Definition nameless_body : Endpoint_server.Subscribe_payload :=
  {| Endpoint_server.wrapped := Endpoint_server.Given nameless;
     Endpoint_server.bare := device |}.

Definition countdown_payload : Payload :=
  {| title := "Tomorrow is September 13th!";
     body := "Just 1 more day until September 13th. Get ready!";
     url := "/" |}.

(** A push service that has dropped [Scenario.browser] and takes every
    other send. *)
Definition browser_gone : Endpoint_server.Transport :=
  fun sub _ =>
    if String.eqb (endpoint sub) (endpoint Scenario.browser)
    then Throw (Endpoint_server.Error
                  {| statusCode := Number 410; message := "Gone" |})
    else Normal tt.

(** A transport that rejects every send with [null]. *)
Definition rejects_null : Endpoint_server.Transport :=
  fun _ _ => Throw Endpoint_server.Nullish.

Definition two_devices : Cache :=
  {| cached := [Scenario.browser; Endpoint_server.stored device];
     saved := [Scenario.browser; Endpoint_server.stored device] |}.

(** A transport of [server.js] that answers every send with a server
    error. *)
Definition failing_500 : Transport :=
  fun _ _ =>
    Throw (Object {| statusCode := Number 500; message := "Server error" |}).

(** A transport of [server.js] that takes every send. *)
Definition accepts_all : Transport := fun _ _ => Normal tt.

(** 22:00 UTC on 12 September 2025, when the clocks of Nairobi read
    01:00 on 13 September. *)
Definition launch_night : Z :=
  instant_of 0 {| year := 2025; month := 9; day := 12;
                  hour := 22; minute := 0; second := 0 |}.

(** The body of the site's page with a second daily time that names no
    hour of the day. *)
Definition late_request : Subscribe_body :=
  {| subscription_field := Some Scenario.browser;
     launchIso_field := None;
     dailyTimes_field := Array ["09:00"; "24:00"; "19:00"];
     timezone_field := Some "Africa/Nairobi";
     meta_field := Some "site" |}.

(** A server on UTC with the [Date] constructor. *)
Definition utc_calendar : Countdown.Calendar :=
  Countdown.fixed_calendar 0 (fun _ => 0%Z).

(** Noon UTC on 13 September 2025. *)
Definition launch_day_noon : Z :=
  instant_of 0 {| year := 2025; month := 9; day := 13;
                  hour := 12; minute := 0; second := 0 |}.

End Examples.

(** * Properties *)

(** ** Recipient store *)

Section Store_facts.
Import Js Store.
Context {V : Type}.
Variable JSON_parse : string → Completion Error_object V.

Lemma readJSON_missing (fallback : V) :
  readJSON JSON_parse Missing fallback = Normal fallback.
Proof. reflexivity. Qed.

Lemma readJSON_unreadable (e : Error_object) (fallback : V) :
  readJSON JSON_parse (Unreadable e) fallback = Normal fallback.
Proof. reflexivity. Qed.

Lemma readJSON_holds (raw : string) (fallback : V) :
  readJSON JSON_parse (Holds raw) fallback =
  Normal (match JSON_parse raw with Normal v => v | Throw _ => fallback end).
Proof. unfold readJSON; simpl. by destruct (JSON_parse raw). Qed.

Lemma loadSubscriptions_holds (raw : string) (empty_array : V) :
  loadSubscriptions JSON_parse empty_array (Holds raw) =
  Normal (match JSON_parse raw with Normal v => v | Throw _ => empty_array end).
Proof. unfold loadSubscriptions; simpl. by destruct (JSON_parse raw). Qed.

(** C7. Loading never raises, whatever the backing file holds: both
    loaders complete normally on every file state; a missing file, a
    read error and malformed text each yield the fallback (the value
    supplied to [readJSON], the empty store for [loadSubscriptions]),
    and text that parses yields its value. *)
Theorem load_is_fail_soft (file : File) (fallback empty_array : V) :
  (∃ v, readJSON JSON_parse file fallback = Normal v)
  ∧ (∃ v, loadSubscriptions JSON_parse empty_array file = Normal v)
  ∧ readJSON JSON_parse Missing fallback = Normal fallback
  ∧ loadSubscriptions JSON_parse empty_array Missing = Normal empty_array
  ∧ (∀ e, readJSON JSON_parse (Unreadable e) fallback = Normal fallback)
  ∧ (∀ e, loadSubscriptions JSON_parse empty_array (Unreadable e)
          = Normal empty_array)
  ∧ (∀ raw, readJSON JSON_parse (Holds raw) fallback
            = Normal (match JSON_parse raw with
                      | Normal v => v
                      | Throw _ => fallback
                      end))
  ∧ (∀ raw, loadSubscriptions JSON_parse empty_array (Holds raw)
            = Normal (match JSON_parse raw with
                      | Normal v => v
                      | Throw _ => empty_array
                      end)).
Proof.
  split_and!; try done.
  - destruct file as [| e | raw]; [by eexists | by eexists |].
    rewrite readJSON_holds. by eexists.
  - destruct file as [| e | raw]; [by eexists | by eexists |].
    rewrite loadSubscriptions_holds. by eexists.
  - intros raw. apply readJSON_holds.
  - intros raw. apply loadSubscriptions_holds.
Qed.
End Store_facts.

(** ** Dispatch client *)

Section Dispatch_facts.
Import Js Dispatch.

Lemma gone_spec (err : Thrown) :
  gone err = true ↔
  ∃ o, err = Object o
       ∧ (statusCode o = Number 410 ∨ statusCode o = Number 404).
Proof.
  split.
  - destruct err as [| o]; [done |]. simpl. intros H. exists o. split; [done |].
    apply orb_true_iff in H as [H | H];
      destruct (statusCode o) as [| z | s]; simpl in H; try done;
      apply Z.eqb_eq in H; subst; auto.
  - intros (o & -> & [H | H]); simpl; rewrite H; reflexivity.
Qed.

Lemma sendPushSafely_normal (webpush : Transport) (sub : Subscription)
    (p : Payload) :
  ∃ res, sendPushSafely webpush sub p = Normal res.
Proof.
  unfold sendPushSafely. destruct (webpush sub p) as [u | err]; simpl.
  - by eexists.
  - destruct (gone err); by eexists.
Qed.

(** C9. [sendPushSafely] always completes normally, and its three
    results partition the transport's outcomes: [true] exactly when
    the transport accepts, [{ removed: true }] exactly when the
    transport rejects with an error whose [statusCode] is the number
    410 or 404, [false] on every other rejection. *)
Theorem sendPushSafely_classifies (webpush : Transport)
    (sub : Subscription) (payload : Payload) :
  (∃ r, sendPushSafely webpush sub payload = Normal r)
  ∧ (sendPushSafely webpush sub payload = Normal Sent
     ↔ ∃ u, webpush sub payload = Normal u)
  ∧ (sendPushSafely webpush sub payload = Normal Removed
     ↔ ∃ o, webpush sub payload = Throw (Object o)
            ∧ (statusCode o = Number 410 ∨ statusCode o = Number 404))
  ∧ (sendPushSafely webpush sub payload = Normal Failed
     ↔ ∃ err, webpush sub payload = Throw err
              ∧ ¬ ∃ o, err = Object o
                       ∧ (statusCode o = Number 410
                          ∨ statusCode o = Number 404)).
Proof.
  unfold sendPushSafely.
  destruct (webpush sub payload) as [u | err] eqn:Hw; simpl.
  - split_and!; [by eexists | | |].
    + split; [by eexists | done].
    + split; [done | by intros (o & ? & _)].
    + split; [done | by intros (e & ? & _)].
  - pose proof (gone_spec err) as Hg.
    destruct (gone err) eqn:Hgone.
    + destruct Hg as [Hg _]. destruct (Hg eq_refl) as (o & -> & Ho).
      split_and!; [by eexists | | |].
      * split; [done | by intros [u ?]].
      * split; [by exists o | done].
      * split; [done |]. intros (e & [= <-] & Hn). destruct Hn. by exists o.
    + split_and!; [by eexists | | |].
      * split; [done | by intros [u ?]].
      * split; [done |]. intros (o & [= ->] & Ho).
        assert (false = true) by (apply Hg; by exists o). done.
      * split; [| done]. intros _. exists err. split; [done |].
        intros Hex. assert (false = true) by by apply Hg. done.
Qed.
End Dispatch_facts.

(** ** Lists of triggers *)

Section List_facts.
Context {A : Type} (P : A → Prop) `{!∀ x, Decision (P x)}.

Lemma filter_imap_unaffected (f : nat → A → A) (l : list A) :
  (∀ i x, l !! i = Some x → P (f i x) ∨ P x → f i x = x) →
  filter P (imap f l) = filter P l.
Proof.
  revert f. induction l as [| x l IH]; intros f Hf; [done |].
  rewrite imap_cons, !filter_cons.
  assert (Hl : filter P (imap (f ∘ S) l) = filter P l).
  { apply IH. intros i y Hy. apply (Hf (S i) y Hy). }
  rewrite Hl. pose proof (Hf 0%nat x eq_refl) as H0.
  destruct (decide (P (f 0%nat x))) as [Hp | Hn].
  - rewrite (H0 (or_introl Hp)) in Hp |- *. by rewrite decide_True.
  - destruct (decide (P x)) as [Hp | Hn']; [| done].
    rewrite (H0 (or_intror Hp)) in Hn. done.
Qed.

Lemma filter_imap_none (f : nat → A → A) (l : list A) :
  (∀ i x, l !! i = Some x → ¬ P (f i x)) →
  filter P (imap f l) = [].
Proof.
  revert f. induction l as [| x l IH]; intros f Hf; [done |].
  rewrite imap_cons, filter_cons.
  rewrite decide_False by apply (Hf 0%nat x eq_refl).
  apply IH. intros i y Hy. apply (Hf (S i) y Hy).
Qed.

Lemma filter_all (l : list A) : Forall P l → filter P l = l.
Proof.
  induction 1 as [| x l Hx _ IH]; [done |].
  rewrite filter_cons, decide_True by done. by rewrite IH.
Qed.
End List_facts.

(** ** Teardown *)

Section Teardown_facts.
Import Scheduler.

Lemma disarm_idempotent (t : Trigger) : disarm (disarm t) = disarm t.
Proof. by destruct t. Qed.

Lemma stopped_by_nil (i : nat) (t : Trigger) : stopped_by [] i t = t.
Proof. unfold stopped_by. by rewrite bool_decide_eq_false_2 by apply not_elem_of_nil. Qed.

Lemma stopped_by_app (hs1 hs2 : list nat) (i : nat) (t : Trigger) :
  stopped_by hs2 i (stopped_by hs1 i t) = stopped_by (hs1 ++ hs2) i t.
Proof.
  unfold stopped_by.
  destruct (decide (i ∈ hs1)) as [H1 | H1], (decide (i ∈ hs2)) as [H2 | H2].
  - rewrite !bool_decide_eq_true_2 by (try apply elem_of_app; auto).
    apply disarm_idempotent.
  - rewrite (bool_decide_eq_false_2 _ H2).
    by rewrite !bool_decide_eq_true_2 by (try apply elem_of_app; auto).
  - rewrite (bool_decide_eq_false_2 _ H1).
    by rewrite !bool_decide_eq_true_2 by (try apply elem_of_app; auto).
  - rewrite (bool_decide_eq_false_2 _ H1), (bool_decide_eq_false_2 _ H2).
    rewrite bool_decide_eq_false_2; [done |].
    rewrite elem_of_app. tauto.
Qed.

Lemma stop_imap (h : nat) (ts : list Trigger) :
  stop h ts = imap (stopped_by [h]) ts.
Proof.
  apply list_eq; intros i. unfold stop.
  rewrite list_lookup_alter, list_lookup_imap. unfold stopped_by.
  destruct (decide (h = i)) as [-> | Hne].
  - rewrite bool_decide_eq_true_2 by (by apply list_elem_of_singleton).
    by destruct (ts !! i).
  - rewrite bool_decide_eq_false_2; [by destruct (ts !! i) |].
    rewrite list_elem_of_singleton. congruence.
Qed.

Lemma imap_stopped_by_twice (hs1 hs2 : list nat) (ts : list Trigger) :
  imap (stopped_by hs2) (imap (stopped_by hs1) ts)
  = imap (stopped_by (hs1 ++ hs2)) ts.
Proof.
  apply list_eq; intros i. rewrite !list_lookup_imap.
  destruct (ts !! i) as [t |]; [| done]. simpl.
  by rewrite stopped_by_app.
Qed.

Lemma stop_opt_imap (h : option nat) (ts : list Trigger) :
  stop_opt h ts = imap (stopped_by (option_list h)) ts.
Proof.
  destruct h as [h |]; simpl; [apply stop_imap |].
  apply list_eq; intros i. rewrite list_lookup_imap.
  destruct (ts !! i); [| done]. simpl. by rewrite stopped_by_nil.
Qed.

Lemma foldl_stop_imap (hs : list nat) (ts : list Trigger) :
  foldl (fun acc h => stop h acc) ts hs = imap (stopped_by hs) ts.
Proof.
  revert ts. induction hs as [| h hs IH]; intros ts; simpl.
  - apply list_eq; intros i. rewrite list_lookup_imap.
    destruct (ts !! i); [| done]. simpl. by rewrite stopped_by_nil.
  - rewrite IH, stop_imap. apply imap_stopped_by_twice.
Qed.

(** Teardown disarms exactly the triggers whose handles the entry
    lists, and leaves every other trigger as it was. *)
Lemma clear_jobs_imap (r : Runtime) (ts : list Trigger) :
  clear_jobs r ts = imap (stopped_by (handles r)) ts.
Proof.
  unfold clear_jobs, handles.
  rewrite foldl_stop_imap, !stop_opt_imap, !imap_stopped_by_twice.
  by rewrite <- ?app_assoc.
Qed.

Lemma clear_jobs_length (r : Runtime) (ts : list Trigger) :
  length (clear_jobs r ts) = length ts.
Proof. by rewrite clear_jobs_imap, length_imap. Qed.

Lemma stopped_by_owner (hs : list nat) (i : nat) (t : Trigger) :
  owner (stopped_by hs i t) = owner t.
Proof. unfold stopped_by. by destruct (bool_decide _). Qed.

Lemma stopped_by_armed (hs : list nat) (i : nat) (t : Trigger) :
  armed (stopped_by hs i t) = true → armed t = true ∧ i ∉ hs.
Proof.
  unfold stopped_by. destruct (decide (i ∈ hs)) as [H | H].
  - by rewrite bool_decide_eq_true_2.
  - by rewrite bool_decide_eq_false_2.
Qed.

Lemma stopped_by_outside (hs : list nat) (i : nat) (t : Trigger) :
  i ∉ hs → stopped_by hs i t = t.
Proof. intros H. unfold stopped_by. by rewrite bool_decide_eq_false_2. Qed.
End Teardown_facts.

(** ** Arming *)

Section Arming_facts.
Import Js Dispatch Clock Planner Scheduler.

Lemma extends_refl (id : string) (sub : Subscription)
    (acc : Runtime * list Trigger) :
  extends id sub [] acc acc.
Proof.
  split; simpl; [by rewrite app_nil_r |].
  intros h. split; [auto | intros [? | ?]; [done | lia]].
Qed.

Lemma extends_trans (id : string) (sub : Subscription) (ks ks' : list Kind)
    (acc acc' acc'' : Runtime * list Trigger) :
  extends id sub ks acc acc' → extends id sub ks' acc' acc'' →
  extends id sub (ks ++ ks') acc acc''.
Proof.
  intros [Ht Hh] [Ht' Hh']. split.
  - rewrite Ht', Ht, fmap_app. by rewrite <- app_assoc.
  - intros h. rewrite Hh', Hh, Ht.
    rewrite !length_app, !length_fmap. split; intros H; intuition lia.
Qed.

Lemma until_rejected_all (p : Kind → bool) (ks : list Kind) :
  forallb p ks = true → until_rejected p ks = ks.
Proof.
  induction ks as [| k ks IH]; simpl; [done |].
  destruct (p k); simpl; [| done]. intros H. by rewrite IH.
Qed.

Lemma until_rejected_app (p : Kind → bool) (ks1 ks2 : list Kind) :
  until_rejected p (ks1 ++ ks2)
  = if forallb p ks1 then ks1 ++ until_rejected p ks2
    else until_rejected p ks1.
Proof.
  induction ks1 as [| k ks1 IH]; simpl; [done |].
  destruct (p k); simpl; [| done]. rewrite IH.
  by destruct (forallb p ks1).
Qed.

Lemma until_rejected_prefix (p : Kind → bool) (ks : list Kind) :
  until_rejected p ks `prefix_of` ks.
Proof.
  induction ks as [| k ks IH]; simpl; [done |].
  destruct (p k); [by apply prefix_cons | apply prefix_nil].
Qed.

(** Two runs in sequence, the second one skipped when the first
    throws. *)
Lemma attempt_chain (p : Kind → bool) (id : string) (sub : Subscription)
    (ks1 ks2 : list Kind) (acc : Runtime * list Trigger)
    (a1 a2 : Attempt (Runtime * list Trigger)) :
  extends id sub (until_rejected p ks1) acc (reached a1) →
  finished a1 = forallb p ks1 →
  (finished a1 = true →
     extends id sub (until_rejected p ks2) (reached a1) (reached a2)
     ∧ finished a2 = forallb p ks2) →
  (finished a1 = false → reached a2 = reached a1 ∧ finished a2 = false) →
  extends id sub (until_rejected p (ks1 ++ ks2)) acc (reached a2)
  ∧ finished a2 = forallb p (ks1 ++ ks2).
Proof.
  intros H1 Hf Hyes Hno. rewrite until_rejected_app, forallb_app.
  destruct (forallb p ks1) eqn:Hall.
  - destruct (Hyes Hf) as [H2 Hf2].
    rewrite (until_rejected_all p ks1 Hall) in H1.
    split; [by eapply extends_trans | done].
  - destruct (Hno Hf) as [-> ->]. by split.
Qed.

Lemma schedule_launch_spec (env : Platform) (now : Z) (id : string)
    (sub : Subscription) (tz : string) (iso : option string)
    (ts : list Trigger) :
  let a := schedule_launch env now id sub tz iso (fresh_runtime, ts) in
  let ks := option_list (planned_launch env now tz iso) in
  extends id sub (until_rejected (accepts env) ks) (fresh_runtime, ts)
          (reached a)
  ∧ finished a = forallb (accepts env) ks.
Proof.
  unfold schedule_launch, planned_launch.
  destruct (truthy iso ≫= Date_parse env) as [launchDate |];
    [| split; [apply extends_refl | done]].
  destruct (Z.ltb_spec now launchDate) as [Hlt | Hge].
  - rewrite (proj2 (Z.ltb_lt 0 (launchDate - now))) by lia. simpl.
    destruct (launchDate - now <? max_delay)%Z; simpl.
    + replace (now + (launchDate - now))%Z with launchDate by lia.
      split; [| done]. split; [done |]. intros h. unfold handles; simpl.
      rewrite list_elem_of_singleton, elem_of_nil. intuition lia.
    + destruct (cron_accepts env _); simpl.
      * split; [| done]. split; [done |]. intros h. unfold handles; simpl.
        rewrite list_elem_of_singleton, elem_of_nil. intuition lia.
      * split; [apply extends_refl | done].
  - rewrite (proj2 (Z.ltb_ge 0 (launchDate - now))) by lia. simpl.
    split; [apply extends_refl | done].
Qed.

Lemma schedule_one_daily_spec (env : Platform) (id : string)
    (sub : Subscription) (tz : string) (acc : Runtime * list Trigger)
    (hhmm : string) :
  let a := schedule_one_daily env id sub tz acc hhmm in
  let ks := option_list (daily_kind tz <$> parse_hhmm hhmm) in
  extends id sub (until_rejected (accepts env) ks) acc (reached a)
  ∧ finished a = forallb (accepts env) ks.
Proof.
  destruct acc as [r ts]. unfold schedule_one_daily.
  destruct (parse_hhmm hhmm) as [[hh mm] |]; simpl;
    [| split; [apply extends_refl | done]].
  unfold daily_kind; simpl. destruct (cron_accepts env _); simpl.
  - split; [| done]. split; [done |]. intros h. unfold handles; simpl.
    rewrite !elem_of_app, list_elem_of_singleton. intuition lia.
  - split; [apply extends_refl | done].
Qed.

Lemma schedule_daily_spec (env : Platform) (id : string)
    (sub : Subscription) (tz : string) (times : option (list string))
    (acc : Runtime * list Trigger) :
  let a := schedule_daily env id sub tz times acc in
  extends id sub (until_rejected (accepts env) (planned_daily tz times))
          acc (reached a)
  ∧ finished a = forallb (accepts env) (planned_daily tz times).
Proof.
  unfold schedule_daily, planned_daily.
  destruct times as [l |]; simpl; [| split; [apply extends_refl | done]].
  revert acc. induction l as [| hhmm l IH]; intros acc;
    [split; [apply extends_refl | done] |].
  assert (E : daily_kind tz <$> omap parse_hhmm (hhmm :: l)
              = option_list (daily_kind tz <$> parse_hhmm hhmm)
                ++ (daily_kind tz <$> omap parse_hhmm l))
    by (simpl; by destruct (parse_hhmm hhmm)).
  rewrite E. cbn [for_each].
  destruct (schedule_one_daily_spec env id sub tz acc hhmm) as [H1 Hf1].
  eapply attempt_chain; [exact H1 | exact Hf1 | |].
  - intros Hfin.
    destruct (schedule_one_daily env id sub tz acc hhmm) as [acc1 | acc1];
      [apply IH | done].
  - intros Hfin.
    by destruct (schedule_one_daily env id sub tz acc hhmm) as [acc1 | acc1].
Qed.

Lemma cleared_imap (id : string) (st : State) :
  cleared id st
  = imap (stopped_by (from_option handles [] (runtimeJobs st !! id)))
         (triggers st).
Proof.
  unfold cleared. destruct (runtimeJobs st !! id) as [r |]; simpl.
  - apply clear_jobs_imap.
  - apply list_eq; intros i. rewrite list_lookup_imap.
    destruct (triggers st !! i); [| done]. simpl. by rewrite stopped_by_nil.
Qed.

Lemma cleared_length (id : string) (st : State) :
  length (cleared id st) = length (triggers st).
Proof. by rewrite cleared_imap, length_imap. Qed.

(** The state that [scheduleFor] leaves, whether it returns or throws:
    the old triggers after the teardown of the entry, followed by the
    planned ones up to the first the library refuses, whose handles make
    up the new entry. *)
Lemma scheduleFor_shape (env : Platform) (now : Z) (id : string)
    (st : State) :
  ∃ r,
    try_scheduleFor env now id st
    = with_jobs st (<[id := r]> (runtimeJobs st))
                (cleared id st ++ planned_triggers env now id st)
    ∧ ∀ h, h ∈ handles r
           ↔ (length (triggers st) ≤ h
              < length (triggers st)
                + length (planned_triggers env now id st))%nat.
Proof.
  unfold try_scheduleFor, scheduleFor, planned_triggers.
  destruct (subscriptions st !! id) as [item |];
    [destruct (subscription item) as [sub |] |].
  - set (tz := or_else (timezone item) "Africa/Nairobi").
    set (a1 := schedule_launch env now id sub tz (launchIso item)
                 (fresh_runtime, cleared id st)).
    set (a2 := match a1 with
               | Finished acc1 =>
                   schedule_daily env id sub tz (dailyTimes item) acc1
               | Interrupted acc1 => Interrupted acc1
               end).
    destruct (schedule_launch_spec env now id sub tz (launchIso item)
                (cleared id st)) as [H1 Hf1].
    fold a1 in H1, Hf1.
    assert (Hchain :
      extends id sub (until_rejected (accepts env) (plan env now item))
              (fresh_runtime, cleared id st) (reached a2)
      ∧ finished a2 = forallb (accepts env) (plan env now item)).
    { unfold plan. fold tz.
      eapply attempt_chain; [exact H1 | exact Hf1 | |]; intros Hfin;
        unfold a2; destruct a1 as [acc1 | acc1]; try done.
      apply schedule_daily_spec. }
    destruct Hchain as [[Ht Hh] _]. cbn [fst snd] in Ht, Hh.
    exists (fst (reached a2)). split.
    + rewrite <- Ht. unfold a2.
      destruct a1 as [acc1 | acc1]; [| done].
      by destruct (schedule_daily env id sub tz (dailyTimes item) acc1).
    + intros h. rewrite Hh, cleared_length, length_fmap.
      unfold handles; simpl. rewrite elem_of_nil. intuition lia.
  - exists fresh_runtime. simpl. split; [by rewrite app_nil_r |].
    intros h. unfold handles; simpl. rewrite elem_of_nil. lia.
  - exists fresh_runtime. simpl. split; [by rewrite app_nil_r |].
    intros h. unfold handles; simpl. rewrite elem_of_nil. lia.
Qed.

(** [scheduleFor] throws exactly when the library refuses one of the
    planned expressions. *)
Lemma scheduleFor_finished (env : Platform) (now : Z) (id : string)
    (st : State) (item : Item) (sub : Subscription) :
  subscriptions st !! id = Some item → subscription item = Some sub →
  finished (scheduleFor env now id st)
  = forallb (accepts env) (plan env now item).
Proof.
  intros Hid Hsub. unfold scheduleFor. rewrite Hid, Hsub.
  set (tz := or_else (timezone item) "Africa/Nairobi").
  destruct (schedule_launch_spec env now id sub tz (launchIso item)
              (cleared id st)) as [_ Hf1].
  unfold plan. fold tz. rewrite forallb_app, <- Hf1.
  destruct (schedule_launch env now id sub tz (launchIso item) _)
    as [acc1 | acc1]; simpl; [| done].
  destruct (schedule_daily_spec env id sub tz (dailyTimes item) acc1)
    as [_ Hf2].
  rewrite <- Hf2.
  by destruct (schedule_daily env id sub tz (dailyTimes item) acc1).
Qed.
End Arming_facts.

(** ** What [scheduleFor] leaves armed *)

Section Schedule_facts.
Import Dispatch Clock Planner Scheduler.

Lemma live_for_spec (id : string) (t : Trigger) :
  live_for id t = true ↔ armed t = true ∧ owner t = id.
Proof.
  unfold live_for. rewrite andb_true_iff, String.eqb_eq. tauto.
Qed.

Lemma planned_triggers_live (env : Platform) (now : Z) (id : string)
    (st : State) :
  Forall (fun t => live_for id t = true) (planned_triggers env now id st).
Proof.
  unfold planned_triggers.
  destruct (subscriptions st !! id) as [item |]; [| done].
  destruct (subscription item) as [sub |]; [| done].
  apply Forall_fmap, Forall_true. intros k. simpl.
  apply live_for_spec. by split.
Qed.

Lemma filter_live_cleared (id : string) (st : State) :
  tracked st →
  filter (fun t => live_for id t = true) (cleared id st) = [].
Proof.
  intros Htr. rewrite cleared_imap. apply filter_imap_none.
  intros i t Hi Hlive. apply live_for_spec in Hlive as [Harmed Hown].
  rewrite stopped_by_owner in Hown.
  apply stopped_by_armed in Harmed as [Harmed Hout].
  destruct (Htr i t Hi Harmed) as (r & Hr & Hin).
  rewrite Hown in Hr. rewrite Hr in Hout. by simpl in Hout.
Qed.

Lemma filter_live_cleared_other (id id' : string) (st : State) :
  owned st → id' ≠ id →
  filter (fun t => live_for id' t = true) (cleared id st)
  = filter (fun t => live_for id' t = true) (triggers st).
Proof.
  intros Hown Hne. rewrite cleared_imap. apply filter_imap_unaffected.
  intros i t Hi Hlive. apply stopped_by_outside. intros Hin.
  assert (owner t = id') as Ht.
  { destruct Hlive as [H | H]; apply live_for_spec in H as [_ H];
      [by rewrite stopped_by_owner in H | done]. }
  destruct (runtimeJobs st !! id) as [r |] eqn:Hr; simpl in Hin;
    [| by apply elem_of_nil in Hin].
  destruct (Hown id r i Hr Hin) as (t' & Hi' & Ht').
  congruence.
Qed.

Lemma filter_live_none (id : string) (l : list Trigger) :
  Forall (fun t => owner t ≠ id) l →
  filter (fun t => live_for id t = true) l = [].
Proof.
  induction 1 as [| t l Ht _ IH]; [done |].
  rewrite filter_cons, decide_False; [done |].
  intros H. apply live_for_spec in H as [_ H]. done.
Qed.

(** After [scheduleFor(id)] in a well-formed state, the armed triggers
    of [id] are the planned ones, up to the first that the library
    refuses. *)
Lemma try_scheduleFor_armed_for (env : Platform) (now : Z) (id : string)
    (st : State) :
  tracked st →
  armed_for id (try_scheduleFor env now id st) = planned_triggers env now id st.
Proof.
  intros Htr. destruct (scheduleFor_shape env now id st) as (r & -> & _).
  unfold armed_for; simpl.
  rewrite filter_app, filter_live_cleared by done. simpl.
  apply filter_all, planned_triggers_live.
Qed.

(** The triggers of every other recipient are left as they were. *)
Lemma try_scheduleFor_armed_other (env : Platform) (now : Z) (id id' : string)
    (st : State) :
  owned st → id' ≠ id →
  armed_for id' (try_scheduleFor env now id st) = armed_for id' st.
Proof.
  intros Hown Hne. destruct (scheduleFor_shape env now id st) as (r & -> & _).
  unfold armed_for; simpl.
  rewrite filter_app, filter_live_cleared_other by done.
  rewrite (filter_live_none id' (planned_triggers env now id st));
    [by rewrite app_nil_r |].
  eapply Forall_impl; [apply (planned_triggers_live env now id st) |].
  intros t Ht%live_for_spec. destruct Ht as [_ ->]. done.
Qed.

Lemma try_scheduleFor_subscriptions (env : Platform) (now : Z) (id : string)
    (st : State) :
  subscriptions (try_scheduleFor env now id st) = subscriptions st
  ∧ persisted (try_scheduleFor env now id st) = persisted st
  ∧ outbox (try_scheduleFor env now id st) = outbox st.
Proof. by destruct (scheduleFor_shape env now id st) as (r & -> & _). Qed.

Lemma try_scheduleFor_consistent (env : Platform) (now : Z) (id : string)
    (st : State) :
  consistent st → consistent (try_scheduleFor env now id st).
Proof.
  intros [Htr Hown].
  destruct (scheduleFor_shape env now id st) as (r & -> & Hr).
  pose proof (planned_triggers_live env now id st) as Hnew.
  split.
  - intros h t; simpl. rewrite lookup_app, cleared_imap, list_lookup_imap.
    destruct (triggers st !! h) as [t0 |] eqn:Hh; simpl.
    + intros [= <-] Harmed. rewrite stopped_by_owner.
      apply stopped_by_armed in Harmed as [Harmed Hout].
      destruct (Htr h t0 Hh Harmed) as (r0 & Hr0 & Hin).
      destruct (decide (owner t0 = id)) as [Heq | Hne].
      * rewrite Heq in Hr0. rewrite Hr0 in Hout. by simpl in Hout.
      * exists r0. by rewrite lookup_insert_ne.
    + rewrite length_imap. intros Ht Harmed.
      assert (owner t = id) as ->.
      { apply list_elem_of_lookup_2 in Ht.
        rewrite Forall_forall in Hnew. by apply live_for_spec, Hnew. }
      exists r. rewrite lookup_insert_eq. split; [done |].
      apply Hr. apply lookup_ge_None in Hh.
      apply lookup_lt_Some in Ht. lia.
  - intros id' r' h; simpl. destruct (decide (id' = id)) as [-> | Hne].
    + rewrite lookup_insert_eq. intros [= <-] Hin. apply Hr in Hin.
      rewrite lookup_app_r, cleared_length by (rewrite cleared_length; lia).
      destruct (lookup_lt_is_Some_2 (planned_triggers env now id st)
                  (h - length (triggers st))) as [t Ht]; [lia |].
      exists t. split; [done |].
      apply list_elem_of_lookup_2 in Ht.
      rewrite Forall_forall in Hnew. by apply live_for_spec, Hnew.
    + rewrite lookup_insert_ne by done. intros Hr' Hin.
      destruct (Hown id' r' h Hr' Hin) as (t & Ht & Ho).
      exists (stopped_by (from_option handles [] (runtimeJobs st !! id)) h t).
      rewrite stopped_by_owner. split; [| done].
      rewrite lookup_app_l by (rewrite cleared_length; by eapply lookup_lt_Some).
      by rewrite cleared_imap, list_lookup_imap, Ht.
Qed.
End Schedule_facts.

(** ** Restart: [rescheduleAll] *)

Section Reschedule_facts.
Import Dispatch Clock Planner Scheduler.

Lemma planned_triggers_ext (env : Platform) (now : Z) (id : string)
    (st st' : State) :
  subscriptions st' = subscriptions st →
  planned_triggers env now id st' = planned_triggers env now id st.
Proof. unfold planned_triggers. by intros ->. Qed.

Lemma foldl_try_scheduleFor (env : Platform) (now : string → Z) (l : list string) :
  NoDup l → ∀ st, consistent st →
  let st' := foldl (fun acc id => try_scheduleFor env (now id) id acc) st l in
  consistent st'
  ∧ subscriptions st' = subscriptions st
  ∧ (∀ id, id ∈ l →
       armed_for id st' = planned_triggers env (now id) id st)
  ∧ (∀ id, id ∉ l → armed_for id st' = armed_for id st).
Proof.
  induction 1 as [| id0 l Hnotin Hnodup IH]; intros st Hst; simpl.
  { split_and!; [done | done | | done]. by intros id ?%elem_of_nil. }
  pose proof (try_scheduleFor_consistent env (now id0) id0 st Hst) as Hst1.
  destruct (try_scheduleFor_subscriptions env (now id0) id0 st) as (Hsub & _).
  destruct (IH _ Hst1) as (Hc & Hs & Hin & Hout).
  split_and!; [done | by rewrite Hs | |].
  - intros id [-> | Hid]%elem_of_cons.
    + rewrite Hout by done. apply try_scheduleFor_armed_for, Hst.
    + rewrite Hin by done. by apply planned_triggers_ext.
  - intros id [Hne Hid]%not_elem_of_cons.
    rewrite Hout by done. apply try_scheduleFor_armed_other; [apply Hst | done].
Qed.

Lemma rescheduleAll_consistent (env : Platform) (now : string → Z) (st : State) :
  consistent st → consistent (rescheduleAll env now st).
Proof.
  intros Hst. unfold rescheduleAll.
  by destruct (foldl_try_scheduleFor env now _
                 (NoDup_fst_map_to_list (subscriptions st)) st Hst).
Qed.




Lemma filter_launch_plan (env : Platform) (now : Z) (id : string)
    (sub : Subscription) (item : Item) :
  filter (fun t => is_launch (kind t) = true)
         ((fun k => new_trigger id k sub) <$> plan env now item)
  = (fun k => new_trigger id k sub)
      <$> option_list (planned_launch env now
                         (or_else (timezone item) "Africa/Nairobi")
                         (launchIso item)).
Proof.
  unfold plan, planned_daily. rewrite fmap_app, filter_app.
  set (tz := or_else (timezone item) "Africa/Nairobi").
  assert (Hd : filter (fun t => is_launch (kind t) = true)
                 ((fun k => new_trigger id k sub)
                    <$> (daily_kind tz
                           <$> omap parse_hhmm (default [] (dailyTimes item))))
               = []).
  { induction (omap parse_hhmm (default [] (dailyTimes item)))
      as [| p l IH]; [done |].
    simpl. rewrite filter_cons, decide_False; [apply IH | done]. }
  rewrite Hd, app_nil_r. apply filter_all, Forall_fmap.
  unfold planned_launch.
  destruct (truthy (launchIso item) ≫= Date_parse env) as [L |];
    [| by constructor].
  destruct (now <? L)%Z; [| by constructor].
  destruct (L - now <? max_delay)%Z; by repeat constructor.
Qed.
End Reschedule_facts.


(** ** The armed part of a plan *)

Section Plan_facts.
Import Js Dispatch Clock Planner Scheduler.


Lemma planned_triggers_prefix (env : Platform) (now : Z) (id : string)
    (st : State) (item : Item) (sub : Subscription) :
  subscriptions st !! id = Some item → subscription item = Some sub →
  planned_triggers env now id st
    `prefix_of` ((fun k => new_trigger id k sub) <$> plan env now item).
Proof.
  intros Hid Hsub. unfold planned_triggers. rewrite Hid, Hsub.
  destruct (until_rejected_prefix (accepts env) (plan env now item))
    as [k Hk].
  exists ((fun k => new_trigger id k sub) <$> k).
  by rewrite Hk at 1; rewrite fmap_app.
Qed.


Lemma filter_prefix_nil {A : Type} (P : A → Prop) `{!∀ x, Decision (P x)}
    (l1 l2 : list A) :
  l1 `prefix_of` l2 → filter P l2 = [] → filter P l1 = [].
Proof.
  intros [k ->]. rewrite filter_app. intros Hnil.
  by apply app_eq_nil in Hnil as [? _].
Qed.

Lemma schedule_launch_unplanned (env : Platform) (now : Z) (id : string)
    (sub : Subscription) (tz : string) (iso : option string)
    (acc : Runtime * list Trigger) :
  planned_launch env now tz iso = None →
  schedule_launch env now id sub tz iso acc = Finished acc.
Proof.
  unfold planned_launch, schedule_launch. destruct acc as [r ts].
  destruct (truthy iso ≫= Date_parse env) as [launchDate |]; [| done].
  destruct (Z.ltb_spec now launchDate) as [Hlt | Hge]; [done |].
  intros _. by rewrite (proj2 (Z.ltb_ge 0 (launchDate - now))) by lia.
Qed.

Lemma schedule_daily_keeps_launch (env : Platform) (id : string)
    (sub : Subscription) (tz : string) (times : option (list string))
    (acc : Runtime * list Trigger) :
  launchTimer (fst (reached (schedule_daily env id sub tz times acc)))
    = launchTimer (fst acc)
  ∧ launchCron (fst (reached (schedule_daily env id sub tz times acc)))
    = launchCron (fst acc).
Proof.
  unfold schedule_daily. destruct times as [l |]; [| done].
  revert acc. induction l as [| hhmm l IH]; intros acc; [done |].
  cbn [for_each].
  assert (Hone :
    launchTimer (fst (reached (schedule_one_daily env id sub tz acc hhmm)))
      = launchTimer (fst acc)
    ∧ launchCron (fst (reached (schedule_one_daily env id sub tz acc hhmm)))
      = launchCron (fst acc)).
  { unfold schedule_one_daily. destruct acc as [r ts].
    destruct (parse_hhmm hhmm) as [[hh mm] |]; [| done].
    by destruct (cron_accepts env _). }
  destruct (schedule_one_daily env id sub tz acc hhmm) as [acc1 | acc1];
    simpl in Hone; [| done].
  destruct (IH acc1) as [-> ->]. done.
Qed.

Lemma try_scheduleFor_without_launch (env : Platform) (now : Z)
    (id : string) (st : State) (item : Item) :
  subscriptions st !! id = Some item →
  planned_launch env now (or_else (timezone item) "Africa/Nairobi")
                 (launchIso item) = None →
  ∃ r, runtimeJobs (try_scheduleFor env now id st) !! id = Some r
       ∧ launchTimer r = None ∧ launchCron r = None.
Proof.
  intros Hid Hnone. unfold try_scheduleFor, scheduleFor. rewrite Hid.
  destruct (subscription item) as [sub |].
  - rewrite schedule_launch_unplanned by done.
    pose proof (schedule_daily_keeps_launch env id sub
                  (or_else (timezone item) "Africa/Nairobi")
                  (dailyTimes item) (fresh_runtime, cleared id st))
      as [Ht Hc].
    destruct (schedule_daily _ _ _ _ _ _) as [[r ts] | [r ts]];
      simpl in Ht, Hc; exists r; simpl; by rewrite lookup_insert_eq.
  - exists fresh_runtime. simpl. by rewrite lookup_insert_eq.
Qed.

Lemma planned_launch_past (host : Host) (now : Z) (tz : string)
    (iso : option string) (launchDate : Z) :
  truthy iso ≫= Date_parse host = Some launchDate →
  (launchDate <= now)%Z →
  planned_launch host now tz iso = None.
Proof.
  intros Hparse Hpast. unfold planned_launch. rewrite Hparse.
  by rewrite (proj2 (Z.ltb_ge now launchDate)).
Qed.

Lemma initial_consistent (loaded : gmap string Item) :
  consistent (initial loaded).
Proof.
  split.
  - intros h t; simpl. by rewrite lookup_nil.
  - intros id r h; simpl. by rewrite lookup_empty.
Qed.

End Plan_facts.

(** ** Planning and scheduling: the claims *)

Section Planning_claims.
Import Js Dispatch Clock Planner Scheduler.

(** X23. A record whose launch time, as the host's [Date] reads
    [launchIso], lies before [now] gets no launch occurrence: the plan
    holds none, the runtime entry that [scheduleFor] writes has neither
    a launch timer nor a launch cron, and no launch trigger of the
    recipient is armed afterwards. This holds at every such [now], so a
    later replanning does not bring the missed launch back. *)
Theorem past_launch_is_not_planned (env : Platform) (now : Z) (id : string)
    (st : State) (item : Item) (launchDate : Z) :
  consistent st →
  subscriptions st !! id = Some item →
  truthy (launchIso item) ≫= Date_parse env = Some launchDate →
  (launchDate < now)%Z →
  planned_launch env now (or_else (timezone item) "Africa/Nairobi")
                 (launchIso item) = None
  ∧ (∃ r, runtimeJobs (try_scheduleFor env now id st) !! id = Some r
          ∧ launchTimer r = None ∧ launchCron r = None)
  ∧ armed_launch id (try_scheduleFor env now id st) = [].
Proof.
  intros [Htr _] Hid Hparse Hpast.
  assert (Hnone : planned_launch env now
                    (or_else (timezone item) "Africa/Nairobi")
                    (launchIso item) = None)
    by (eapply planned_launch_past; [done | lia]).
  split_and!; [done | by eapply try_scheduleFor_without_launch |].
  unfold armed_launch. rewrite try_scheduleFor_armed_for by done.
  destruct (subscription item) as [sub |] eqn:Hsub.
  - eapply filter_prefix_nil; [by eapply planned_triggers_prefix |].
    by rewrite filter_launch_plan, Hnone.
  - unfold planned_triggers. by rewrite Hid, Hsub.
Qed.

Lemma past_launch_is_not_planned_witness :
  consistent (initial Scenario.loaded)
  ∧ planned_launch Scenario.utc_server Scenario.mid_september
                   "Africa/Nairobi" (Some "2025-09-13T00:00:00") = None
  ∧ armed_launch "u1"
      (try_scheduleFor Scenario.utc_server Scenario.mid_september "u1"
         (initial Scenario.loaded)) = [].
Proof.
  split; [apply initial_consistent |].
  destruct (past_launch_is_not_planned Scenario.utc_server
              Scenario.mid_september "u1" (initial Scenario.loaded)
              Scenario.site_item 1757721600000%Z)
    as (Hplan & _ & Harmed).
  - apply initial_consistent.
  - reflexivity.
  - reflexivity.
  - vm_compute. reflexivity.
  - split; [exact Hplan | exact Harmed].
Defined.



(** An entry that parses but that the library refuses ends the loop: on
    [utc_server] the record ["u4"] keeps its 9:00 job and loses the
    19:00 one that follows ["24:00"], and [scheduleFor] throws. *)
Lemma refused_expression_ends_the_loop :
  let st := initial (<["u4" := Scenario.late_item]> ∅) in
  finished (scheduleFor Scenario.utc_server Scenario.early_september "u4" st)
    = false
  ∧ armed_daily "u4"
      (try_scheduleFor Scenario.utc_server Scenario.early_september "u4" st)
    = [(9, 0)]%Z.
Proof. vm_compute. by split. Qed.
End Planning_claims.

Section Planning_defects.
Import Js Dispatch Clock Planner Scheduler Api Server.

(** C5. On a host whose local zone is UTC, the record that the site's
    page stores (launch at midnight of 13 September 2025, zone
    Africa/Nairobi) is scheduled at 22:00 UTC on 12 September, when the
    clock of the record's zone reads 01:00 on 13 September. The launch
    time of the record lies an hour in the past, and [scheduleFor] arms
    a launch timeout all the same, two hours ahead, on a request as on
    start-up; its callback sends the launch message. *)
Theorem launch_past_in_record_zone_is_armed :
  let now := Examples.launch_night in
  let st :=
    snd (subscribe Scenario.utc_server "u1" now Scenario.site_request
           (initial ∅)) in
  let restarted :=
    boot Scenario.utc_server (fun _ => now)
      (<["u1" := Scenario.site_item]> ∅) in
  let due := instant_of 0 Scenario.launch_reading in
  zone_clock Scenario.utc_server "Africa/Nairobi" now
    = {| year := 2025; month := 9; day := 13;
         hour := 1; minute := 0; second := 0 |}
  ∧ (instant_of (3 * ms_per_hour) Scenario.launch_reading < now)%Z
  ∧ kind <$> armed_launch "u1" st = [Launch_timer due]
  ∧ kind <$> armed_launch "u1" restarted = [Launch_timer due]
  ∧ (due - now = 2 * ms_per_hour)%Z
  ∧ (launchTimer <$> runtimeJobs st !! "u1" = Some (Some 0%nat))
  ∧ due_at Scenario.utc_server (Launch_timer due) due = true
  ∧ outbox (fire Examples.accepts_all due 0 st)
    = [(Scenario.browser, launch_payload)].
Proof. vm_compute. by split_and!. Qed.

(** C6. On a server whose cron library takes the expressions with
    fields in range, the record with the daily times 09:00, 24:00 and
    19:00 gets its 9:00 job only. The entry 24:00 passes the guard on
    hour and minute, since both parse, the library refuses its
    expression, and the throw ends the loop over the entries: no job is
    armed for 19:00, an entry that parses and whose expression the
    library takes. This is so on a subscribe request and on start-up.
    The record stays in the store and the other records are scheduled
    in full, an entry that does not parse being skipped on its own. *)
Theorem out_of_range_daily_time_drops_later_entries :
  let loaded := <["u4" := Scenario.late_item]> Scenario.loaded in
  let st :=
    boot Scenario.utc_server (fun _ => Scenario.early_september) loaded in
  let requested :=
    subscribe Scenario.utc_server "u9" Scenario.early_september
      Examples.late_request (initial ∅) in
  dailyTimes Scenario.late_item = Some ["09:00"; "24:00"; "19:00"]
  ∧ parse_hhmm "24:00" = Some (24, 0)%Z
  ∧ cron_accepts Scenario.utc_server (Daily 0 24 "Africa/Nairobi") = false
  ∧ parse_hhmm "19:00" = Some (19, 0)%Z
  ∧ cron_accepts Scenario.utc_server (Daily 0 19 "Africa/Nairobi") = true
  ∧ finished (scheduleFor Scenario.utc_server Scenario.early_september
                "u4" (initial loaded)) = false
  ∧ armed_daily "u4" st = [(9, 0)]%Z
  ∧ subscriptions st !! "u4" = Some Scenario.late_item
  ∧ armed_daily "u1" st = [(9, 0); (13, 0); (19, 0)]%Z
  ∧ armed_daily "u2" st = [(9, 0); (19, 0)]%Z
  ∧ status (fst requested) = 200%Z
  ∧ armed_daily "u9" (snd requested) = [(9, 0)]%Z.
Proof. vm_compute. by split_and!. Qed.

End Planning_defects.

(** ** Scheduling twice *)

Section Idempotence_claims.
Import Dispatch Clock Planner Scheduler.



End Idempotence_claims.

(** ** Request handlers: the claims *)

Section Api_claims.
Import Dispatch Clock Planner Scheduler Api.




Lemma unsubscribe_known (req : Unsubscribe_request) (st : State)
    (id : string) :
  requested_id req = Some id → is_Some (subscriptions st !! id) →
  unsubscribe req st
  = (plain true,
     forget id (with_jobs st (delete id (runtimeJobs st)) (cleared id st))).
Proof.
  intros Hreq Hid. unfold unsubscribe. rewrite Hreq.
  by rewrite bool_decide_eq_true_2.
Qed.

(** C10. An unsubscribe request that names a stored id answers with
    success and removes that record from the map, in memory and on disk;
    every other id reads afterwards as it did before. *)
Theorem unsubscribe_removes_only_that_record (req : Unsubscribe_request)
    (st : State) (id : string) (item : Item) :
  requested_id req = Some id →
  subscriptions st !! id = Some item →
  fst (unsubscribe req st) = plain true
  ∧ subscriptions (snd (unsubscribe req st)) !! id = None
  ∧ (∀ other, other ≠ id →
       subscriptions (snd (unsubscribe req st)) !! other
       = subscriptions st !! other)
  ∧ persisted (snd (unsubscribe req st))
    = subscriptions (snd (unsubscribe req st)).
Proof.
  intros Hreq Hid. rewrite (unsubscribe_known req st id) by eauto. simpl.
  split_and!; [done | apply lookup_delete_eq | | done].
  intros other Hne. by apply lookup_delete_ne.
Qed.

Lemma unsubscribe_removes_only_that_record_witness :
  let req := {| body_id := Some "u2"; query_id := None |} in
  let st := initial Scenario.loaded in
  fst (unsubscribe req st) = plain true
  ∧ subscriptions (snd (unsubscribe req st)) !! "u2" = None
  ∧ subscriptions (snd (unsubscribe req st)) !! "u1"
    = Some Scenario.site_item.
Proof.
  intros req st.
  destruct (unsubscribe_removes_only_that_record req st "u2"
              Scenario.edited_item eq_refl eq_refl)
    as (Hok & Hgone & Hkept & _).
  split_and!; [exact Hok | exact Hgone |].
  rewrite (Hkept "u1") by done. reflexivity.
Defined.
End Api_claims.

(** ** Unsubscribing an unknown recipient *)

Section Unknown_claims.
Import Dispatch Scheduler Api.

Lemma filter_other_endpoints (e : string) (l : list Subscription) :
  Forall (fun s => endpoint s ≠ e) l →
  filter (fun s => negb (String.eqb (endpoint s) e) = true) l = l.
Proof.
  intros H. apply filter_all. eapply Forall_impl; [exact H |].
  intros s Hs. simpl. apply negb_true_iff. by apply String.eqb_neq.
Qed.

(** C3, as the code has it. When the request names no stored record
    (no identifier, or one that matches nothing) the store is left as it
    was. The id-keyed handler answers with status 200 and
    [success: false], except for an id that is a name inherited from
    [Object.prototype], where the body says [success: true]. The
    endpoint-keyed handler rejects a request without an endpoint with
    status 400 and [success: false], and answers an endpoint that
    matches nothing with status 200 and [success: true]. *)
Theorem unsubscribe_unknown_keeps_store (req : Unsubscribe_request)
    (st : State) (payload : option Endpoint_variant.Body)
    (c : Endpoint_variant.Cache) :
  unknown_to st req →
  Endpoint_variant.unknown_to c payload →
  subscriptions (snd (unsubscribe req st)) = subscriptions st
  ∧ status (fst (unsubscribe req st)) = 200%Z
  ∧ success (fst (unsubscribe req st))
    = Some (from_option inherited false (requested_id req))
  ∧ snd (Endpoint_variant.unsubscribe payload c) = c
  ∧ status (fst (Endpoint_variant.unsubscribe payload c))
    = match Endpoint_variant.requested_endpoint payload with
      | Some _ => 200%Z
      | None => 400%Z
      end
  ∧ success (fst (Endpoint_variant.unsubscribe payload c))
    = Some (bool_decide
              (is_Some (Endpoint_variant.requested_endpoint payload))).
Proof.
  unfold unknown_to, Endpoint_variant.unknown_to,
    Endpoint_variant.unsubscribe.
  intros Hid He.
  assert (Hserver :
    subscriptions (snd (unsubscribe req st)) = subscriptions st
    ∧ status (fst (unsubscribe req st)) = 200%Z
    ∧ success (fst (unsubscribe req st))
      = Some (from_option inherited false (requested_id req))).
  { unfold unsubscribe.
    destruct (requested_id req) as [id |]; simpl; [| done].
    rewrite Hid. rewrite bool_decide_eq_false_2 by by intros [? ?].
    simpl. destruct (inherited id); simpl; [| done].
    split_and!; [by apply delete_id | done | done]. }
  destruct Hserver as (H1 & H2 & H3).
  split_and!; [exact H1 | exact H2 | exact H3 | | |].
  - destruct (Endpoint_variant.requested_endpoint payload) as [e |];
      simpl; [| done].
    rewrite filter_other_endpoints by done.
    rewrite Nat.eqb_refl. by destruct c.
  - by destruct (Endpoint_variant.requested_endpoint payload).
  - by destruct (Endpoint_variant.requested_endpoint payload).
Qed.

Lemma unsubscribe_unknown_keeps_store_witness :
  let req := {| body_id := Some "nobody"; query_id := None |} in
  let st := initial Scenario.loaded in
  let payload :=
    Some {| Endpoint_variant.endpoint_field := Some "https://push.example/x";
            Endpoint_variant.nested_endpoint := None |} in
  subscriptions (snd (unsubscribe req st)) = Scenario.loaded
  ∧ success (fst (unsubscribe req st)) = Some false
  ∧ snd (Endpoint_variant.unsubscribe payload Scenario.cache)
    = Scenario.cache
  ∧ success (fst (Endpoint_variant.unsubscribe payload Scenario.cache))
    = Some true.
Proof.
  intros req st payload.
  assert (Hid : unknown_to st req) by reflexivity.
  assert (He : Endpoint_variant.unknown_to Scenario.cache payload).
  { unfold Endpoint_variant.unknown_to; simpl.
    repeat constructor. discriminate. }
  destruct (unsubscribe_unknown_keeps_store req st payload Scenario.cache
              Hid He) as (Hs & _ & Hok & Hc & _ & Hok').
  split_and!; [exact Hs | exact Hok | exact Hc | exact Hok'].
Defined.

(** C3 as stated fails: an unknown id is answered with
    [success: false], and a request without an endpoint is rejected
    with status 400. *)
Lemma unsubscribe_unknown_is_not_reported_as_success :
  let req := {| body_id := Some "nobody"; query_id := None |} in
  let st := initial Scenario.loaded in
  unknown_to st req
  ∧ success (fst (unsubscribe req st)) ≠ Some true
  ∧ Endpoint_variant.unknown_to Scenario.cache None
  ∧ status (fst (Endpoint_variant.unsubscribe None Scenario.cache)) = 400%Z
  ∧ success (fst (Endpoint_variant.unsubscribe None Scenario.cache))
    ≠ Some true.
Proof. split_and!; try reflexivity; vm_compute; discriminate. Qed.
End Unknown_claims.

(** ** Trigger fires *)

Section Fire_facts.
Import Js Dispatch Clock Planner Scheduler.

(** A fire changes no trigger other than the one that fired, and that
    one it can only disarm. *)
Lemma fire_triggers (webpush : Transport) (now : Z) (h : nat) (st : State) :
  triggers (fire webpush now h st) = triggers st
  ∨ triggers (fire webpush now h st) = stop h (triggers st).
Proof.
  unfold fire. destruct (triggers st !! h) as [t |]; [| by left].
  destruct (armed t); [| by left].
  destruct (kind t).
  - destruct (sendPushSafely webpush (target t) launch_payload) as [res | e];
      [| by right].
    unfold touch; simpl.
    destruct (runtimeJobs st !! owner t); [| by right].
    destruct (removed res); by right.
  - destruct (sendPushSafely webpush (target t) launch_payload) as [res | e];
      [| by left].
    destruct (removed res); by right.
  - destruct (sendPushSafely webpush (target t) daily_payload) as [res | e];
      [| by left].
    unfold touch; simpl.
    destruct (runtimeJobs st !! owner t); [| by left].
    destruct (removed res); [by right | by left].
Qed.

Lemma fire_keeps_other_triggers (webpush : Transport) (now : Z)
    (h i : nat) (st : State) :
  i ≠ h → triggers (fire webpush now h st) !! i = triggers st !! i.
Proof.
  intros Hne. destruct (fire_triggers webpush now h st) as [-> | ->];
    [done |].
  unfold stop. by rewrite list_lookup_alter_ne.
Qed.

(** When the transport reports the endpoint gone, the fire of an armed
    trigger whose owner has a runtime entry removes the record from the
    map and from the file. *)
Lemma fire_gone_forgets (webpush : Transport) (now : Z) (h : nat)
    (st : State) (t : Trigger) :
  triggers st !! h = Some t → armed t = true →
  is_Some (runtimeJobs st !! owner t) →
  (∀ p, sendPushSafely webpush (target t) p = Normal Removed) →
  subscriptions (fire webpush now h st) !! owner t = None
  ∧ persisted (fire webpush now h st) !! owner t = None.
Proof.
  intros Ht Harmed [r Hr] Hgone. unfold fire. rewrite Ht, Harmed.
  destruct (kind t); rewrite Hgone; unfold touch; simpl;
    rewrite ?Hr; simpl; split; apply lookup_delete_eq.
Qed.

(** A launch cron job is disarmed by its own fire, whatever the
    transport answers. *)
Lemma launch_cron_fires_once (webpush : Transport) (now : Z) (h : nat)
    (st : State) (t : Trigger) (mi hr d mo : Z) (tz : string) :
  triggers st !! h = Some t → armed t = true →
  kind t = Launch_cron mi hr d mo tz →
  triggers (fire webpush now h st) !! h = Some (disarm t).
Proof.
  intros Ht Harmed Hk. unfold fire. rewrite Ht, Harmed, Hk.
  destruct (sendPushSafely_normal webpush (target t) launch_payload)
    as [res ->].
  destruct (removed res); simpl; unfold stop;
    by rewrite list_lookup_alter_eq, Ht.
Qed.

(** The instant of a planned launch timeout does not depend on the
    zone of the record. *)
Lemma launch_timer_ignores_zone (host : Host) (now due : Z)
    (tz tz' : string) (iso : option string) :
  planned_launch host now tz iso = Some (Launch_timer due) →
  planned_launch host now tz' iso = Some (Launch_timer due).
Proof.
  unfold planned_launch.
  destruct (truthy iso ≫= Date_parse host) as [L |]; [| done].
  destruct (now <? L)%Z; [| done].
  by destruct (L - now <? max_delay)%Z.
Qed.

(** On a host with fixed offsets, a planned launch timeout elapses when
    the host's own clock reads the launch time; measured against the
    instant at which the clock of the record's zone reads it, the
    timeout is late by the difference of the two offsets. *)
Lemma launch_timer_lag (offset : Z) (zones : string → Z) (now due : Z)
    (tz iso : string) :
  planned_launch (fixed_host offset zones) now tz (Some iso)
    = Some (Launch_timer due) →
  ∃ c, parse_date_time iso = Some c
       ∧ due = instant_of offset c
       ∧ (due - instant_of (zones tz) c = zones tz - offset)%Z.
Proof.
  unfold planned_launch. simpl.
  destruct (String.eqb iso EmptyString); [done |]. simpl.
  destruct (parse_date_time iso) as [c |]; [| done]. simpl.
  destruct (now <? instant_of offset c)%Z; [| done].
  destruct (instant_of offset c - now <? max_delay)%Z; [| done].
  intros [= <-]. exists c. split_and!; [done | done |].
  unfold instant_of. lia.
Qed.

(** C1, on the code. The site's subscription has a launch timeout
    (trigger 0) and daily jobs for 9:00, 13:00 and 19:00 (triggers 1 to
    3). When the 9:00 job fires and the transport answers 410, the
    record leaves the map and the file, but the 13:00 and 19:00 jobs and
    the launch timeout stay armed, and the 13:00 job, fired next, sends
    to the removed endpoint once more. When the launch timeout fires
    and the transport answers 410, the record leaves the map and all
    three daily jobs stay armed. *)
Theorem gone_leaves_other_triggers_armed :
  let st := Scenario.subscribed in
  let after_daily := fire Scenario.gone_410 (Scenario.early_september + 1) 1 st in
  let after_launch := fire Scenario.gone_410 (Scenario.early_september + 1) 0 st in
  armed_daily "u1" st = [(9, 0); (13, 0); (19, 0)]%Z
  ∧ length (armed_launch "u1" st) = 1%nat
  ∧ subscriptions after_daily !! "u1" = None
  ∧ persisted after_daily !! "u1" = None
  ∧ armed_daily "u1" after_daily = [(13, 0); (19, 0)]%Z
  ∧ length (armed_launch "u1" after_daily) = 1%nat
  ∧ outbox (fire Scenario.gone_410 (Scenario.early_september + 2) 2 after_daily)
    = outbox after_daily ++ [(Scenario.browser, daily_payload)]
  ∧ subscriptions after_launch !! "u1" = None
  ∧ armed_daily "u1" after_launch = [(9, 0); (13, 0); (19, 0)]%Z.
Proof. vm_compute. by split_and!. Qed.

(** C4, on the code. On a server whose clock is UTC, the site's
    subscription (timezone Africa/Nairobi, launch 2025-09-13T00:00:00)
    made ten days ahead gets a launch timeout for the instant at which
    the server's clock reads the launch time: Nairobi then reads 03:00,
    and at Nairobi's midnight the timeout is not due. Made on 1 August,
    beyond the timer limit, the same subscription gets a dated cron job
    in the record's zone, which is due at Nairobi's midnight; and the
    daily jobs carry the record's zone in both cases. *)
Theorem launch_timer_follows_host_clock :
  let nairobi_midnight :=
    instant_of (3 * ms_per_hour) Scenario.launch_reading in
  let utc_midnight := instant_of 0 Scenario.launch_reading in
  kind <$> armed_for "u1" Scenario.subscribed
    = [Launch_timer utc_midnight;
       Daily 0 9 "Africa/Nairobi"; Daily 0 13 "Africa/Nairobi";
       Daily 0 19 "Africa/Nairobi"]
  ∧ zone_clock Scenario.utc_server "Africa/Nairobi" nairobi_midnight
    = Scenario.launch_reading
  ∧ due_at Scenario.utc_server (Launch_timer utc_midnight) nairobi_midnight = false
  ∧ due_at Scenario.utc_server (Launch_timer utc_midnight) utc_midnight = true
  ∧ hour (zone_clock Scenario.utc_server "Africa/Nairobi" utc_midnight) = 3%Z
  ∧ kind <$> armed_launch "u1" Scenario.subscribed_early
    = [Launch_cron 0 0 13 9 "Africa/Nairobi"]
  ∧ due_at Scenario.utc_server (Launch_cron 0 0 13 9 "Africa/Nairobi") nairobi_midnight
    = true.
Proof. vm_compute. by split_and!. Qed.
End Fire_facts.

(** ** Every reachable state is well formed *)

Section Reachability.
Import Js Dispatch Clock Planner Scheduler Api Server.

Lemma consistent_after_stop (st st' : State) (h : nat) :
  (∀ id, handles <$> runtimeJobs st' !! id = handles <$> runtimeJobs st !! id) →
  triggers st' = triggers st ∨ triggers st' = stop h (triggers st) →
  consistent st → consistent st'.
Proof.
  intros Hrj Hts [Htr Hown].
  assert (Hlook : ∀ i t', triggers st' !! i = Some t' →
            ∃ t, triggers st !! i = Some t ∧ owner t' = owner t
                 ∧ (armed t' = true → armed t = true)).
  { intros i t' Hi. destruct Hts as [Hts | Hts]; rewrite Hts in Hi.
    - by exists t'.
    - unfold stop in Hi. rewrite list_lookup_alter in Hi.
      destruct (decide (h = i)) as [-> | Hne]; [| by exists t'].
      destruct (triggers st !! i) as [t |]; [| done].
      injection Hi as <-. by exists t. }
  split.
  - intros i t' Hi Harmed.
    destruct (Hlook i t' Hi) as (t & Ht & Ho & Ha).
    destruct (Htr i t Ht (Ha Harmed)) as (r & Hr & Hin).
    specialize (Hrj (owner t)). rewrite Hr in Hrj. simpl in Hrj.
    rewrite Ho. destruct (runtimeJobs st' !! owner t) as [r' |]; [| done].
    exists r'. split; [done |]. injection Hrj as ->. done.
  - intros id r' i Hr' Hin.
    specialize (Hrj id). rewrite Hr' in Hrj. simpl in Hrj.
    destruct (runtimeJobs st !! id) as [r |] eqn:Hr; [| done].
    injection Hrj as Hrj. rewrite Hrj in Hin.
    destruct (Hown id r i Hr Hin) as (t & Ht & Ho).
    destruct Hts as [Hts | Hts]; rewrite Hts.
    + by exists t.
    + unfold stop. rewrite list_lookup_alter.
      destruct (decide (h = i)) as [-> | Hne]; [| by exists t].
      rewrite Ht. by exists (disarm t).
Qed.

Lemma touch_handles (id : string) (now : Z) (st st' : State) :
  touch id now st = Some st' →
  triggers st' = triggers st
  ∧ subscriptions st' = subscriptions st
  ∧ ∀ id', handles <$> runtimeJobs st' !! id'
           = handles <$> runtimeJobs st !! id'.
Proof.
  unfold touch. destruct (runtimeJobs st !! id) as [r |] eqn:Hr; [| done].
  intros [= <-]. split_and!; [done | done |]. intros id'; simpl.
  destruct (decide (id = id')) as [<- | Hne].
  - by rewrite lookup_insert_eq, Hr.
  - by rewrite lookup_insert_ne.
Qed.

Lemma fire_handles (webpush : Transport) (now : Z) (h : nat) (st : State)
    (id : string) :
  handles <$> runtimeJobs (fire webpush now h st) !! id
  = handles <$> runtimeJobs st !! id.
Proof.
  unfold fire. destruct (triggers st !! h) as [t |]; [| done].
  destruct (armed t); [| done].
  destruct (kind t).
  - destruct (sendPushSafely webpush (target t) launch_payload) as [res | e];
      [| done].
    destruct (touch (owner t) now _) as [st2 |] eqn:Ht; [| done].
    apply touch_handles in Ht as (_ & _ & Ht).
    destruct (removed res); simpl; by rewrite Ht.
  - destruct (sendPushSafely webpush (target t) launch_payload) as [res | e];
      [| done].
    by destruct (removed res).
  - destruct (sendPushSafely webpush (target t) daily_payload) as [res | e];
      [| done].
    destruct (touch (owner t) now _) as [st2 |] eqn:Ht; [| done].
    apply touch_handles in Ht as (_ & _ & Ht).
    destruct (removed res); simpl; by rewrite Ht.
Qed.

Lemma fire_consistent (webpush : Transport) (now : Z) (h : nat) (st : State) :
  consistent st → consistent (fire webpush now h st).
Proof.
  apply (consistent_after_stop st _ h).
  - intros id. apply fire_handles.
  - apply fire_triggers.
Qed.

Lemma consistent_same_jobs (st st' : State) :
  triggers st' = triggers st → runtimeJobs st' = runtimeJobs st →
  consistent st → consistent st'.
Proof. unfold consistent, tracked, owned. by intros -> ->. Qed.

Lemma subscribe_consistent (env : Platform) (uuid : string) (now : Z)
    (req : Subscribe_body) (st : State) :
  consistent st → consistent (snd (subscribe env uuid now req st)).
Proof.
  intros Hst. unfold subscribe.
  destruct (usable (subscription_field req)) as [sub |]; [| done].
  cbn [snd]. apply try_scheduleFor_consistent.
  by eapply consistent_same_jobs.
Qed.

Lemma unsubscribe_consistent (req : Unsubscribe_request) (st : State) :
  consistent st → consistent (snd (unsubscribe req st)).
Proof.
  intros [Htr Hown]. unfold unsubscribe.
  destruct (requested_id req) as [id |]; [| done].
  destruct (_ || _); [| done]. cbn [snd].
  split.
  - intros i t'; simpl. rewrite cleared_imap, list_lookup_imap.
    destruct (triggers st !! i) as [t |] eqn:Ht; [| done]. simpl.
    intros [= <-] Harmed. rewrite stopped_by_owner.
    apply stopped_by_armed in Harmed as [Harmed Hout].
    destruct (Htr i t Ht Harmed) as (r & Hr & Hin).
    exists r. split; [| done]. rewrite lookup_delete_ne; [done |].
    intros Heq. rewrite <- Heq in Hr. rewrite Hr in Hout. by simpl in Hout.
  - intros id' r i; simpl. rewrite lookup_delete_Some.
    intros [Hne Hr] Hin.
    destruct (Hown id' r i Hr Hin) as (t & Ht & Ho).
    rewrite cleared_imap, list_lookup_imap, Ht. simpl.
    eexists. split; [done |]. by rewrite stopped_by_owner.
Qed.

Lemma step_consistent (env : Platform) (st : State) (e : Event) :
  consistent st → consistent (step env st e).
Proof.
  destruct e; simpl.
  - apply subscribe_consistent.
  - apply unsubscribe_consistent.
  - apply fire_consistent.
Qed.

(** The hypothesis of the scheduling theorems holds throughout every
    run of the server. *)
Lemma reachable_consistent (env : Platform) (st : State) :
  reachable env st → consistent st.
Proof.
  intros (now & loaded & es & ->). unfold run, boot.
  assert (Hboot : consistent (rescheduleAll env now (initial loaded)))
    by apply rescheduleAll_consistent, initial_consistent.
  revert Hboot. generalize (rescheduleAll env now (initial loaded)).
  induction es as [| e es IH]; intros st Hst; [done |].
  simpl. apply IH. by apply step_consistent.
Qed.
End Reachability.

(** * Further properties of the handlers and the scheduler *)

Section Teardown_on_request.
Import Js Dispatch Clock Scheduler Api Server.

Lemma unsubscribe_teardown (req : Unsubscribe_request) (st : State)
    (id : string) :
  consistent st →
  requested_id req = Some id →
  is_Some (subscriptions st !! id) →
  let st' := snd (unsubscribe req st) in
  fst (unsubscribe req st) = plain true
  ∧ subscriptions st' = delete id (subscriptions st)
  ∧ persisted st' = delete id (subscriptions st)
  ∧ armed_for id st' = []
  ∧ runtimeJobs st' !! id = None
  ∧ (∀ other, other ≠ id →
       armed_for other st' = armed_for other st
       ∧ runtimeJobs st' !! other = runtimeJobs st !! other)
  ∧ outbox st' = outbox st.
Proof.
  intros [Htr Hown] Hreq Hin. cbv zeta.
  rewrite (unsubscribe_known req st id Hreq Hin). cbn [fst snd].
  unfold armed_for; simpl. split_and!; try done.
  - by apply filter_live_cleared.
  - apply lookup_delete_eq.
  - intros other Hne. split.
    + by apply filter_live_cleared_other.
    + by apply lookup_delete_ne.
Qed.

(** X1. Unsubscribing a stored id stops every timer and cron job of
    that id and drops its runtime entry; the triggers and entries of
    every other id are as before, and nothing is sent. *)
Theorem unsubscribe_stops_all_triggers_of_id (req : Unsubscribe_request)
    (st : State) (id : string) (item : Item) :
  consistent st →
  requested_id req = Some id →
  subscriptions st !! id = Some item →
  let st' := snd (unsubscribe req st) in
  armed_for id st' = []
  ∧ runtimeJobs st' !! id = None
  ∧ (∀ other, other ≠ id →
       armed_for other st' = armed_for other st
       ∧ runtimeJobs st' !! other = runtimeJobs st !! other)
  ∧ outbox st' = outbox st.
Proof.
  intros Hst Hreq Hid.
  destruct (unsubscribe_teardown req st id Hst Hreq) as (_ & _ & _ & H);
    [by rewrite Hid |].
  exact H.
Qed.

Lemma unsubscribe_stops_all_triggers_of_id_witness :
  let req := {| body_id := Some "u1"; query_id := None |} in
  length (armed_for "u1" Scenario.subscribed) = 4%nat
  ∧ armed_for "u1" (snd (unsubscribe req Scenario.subscribed)) = []
  ∧ runtimeJobs (snd (unsubscribe req Scenario.subscribed)) !! "u1" = None.
Proof.
  cbv zeta.
  assert (Hst : consistent Scenario.subscribed).
  { apply subscribe_consistent, initial_consistent. }
  destruct (unsubscribe_stops_all_triggers_of_id
              {| body_id := Some "u1"; query_id := None |}
              Scenario.subscribed "u1" _ Hst eq_refl
              ltac:(vm_compute; reflexivity))
    as (H1 & H2 & _).
  split; [vm_compute; reflexivity |]. by split.
Defined.

(** X2. Subscribing under a fresh id and then unsubscribing that id
    gives back the store and leaves the file equal to it; no trigger of
    the id stays armed, and the triggers of every other id are as they
    were before the two requests. *)
Theorem subscribe_then_unsubscribe_restores_store (env : Platform)
    (uuid : string) (now : Z) (req : Subscribe_body) (st : State)
    (sub : Subscription) :
  consistent st →
  subscriptions st !! uuid = None →
  uuid ≠ EmptyString →
  usable (subscription_field req) = Some sub →
  let st1 := snd (subscribe env uuid now req st) in
  let leave := {| body_id := Some uuid; query_id := None |} in
  let st2 := snd (unsubscribe leave st1) in
  fst (unsubscribe leave st1) = plain true
  ∧ subscriptions st2 = subscriptions st
  ∧ persisted st2 = subscriptions st
  ∧ armed_for uuid st2 = []
  ∧ runtimeJobs st2 !! uuid = None
  ∧ (∀ other, other ≠ uuid → armed_for other st2 = armed_for other st).
Proof.
  intros Hst Hfresh Hne Hsub. cbv zeta.
  set (leave := {| body_id := Some uuid; query_id := None |}).
  assert (Hreq : requested_id leave = Some uuid).
  { unfold requested_id, leave, truthy; simpl.
    destruct (String.eqb_spec uuid EmptyString); [done | done]. }
  pose proof (subscribe_consistent env uuid now req st Hst) as Hst1.
  assert (Hstore : ∃ item,
    subscriptions (snd (subscribe env uuid now req st))
    = <[uuid := item]> (subscriptions st)
    ∧ ∀ other, other ≠ uuid →
        armed_for other (snd (subscribe env uuid now req st))
        = armed_for other st).
  { unfold subscribe. rewrite Hsub. cbn [snd].
    match goal with
    | |- context [<[uuid := ?i]> (subscriptions st)] => exists i
    end.
    split.
    - by destruct (try_scheduleFor_subscriptions env now uuid
        (persistSubscriptions
           {| subscriptions := <[uuid := {|
                  id := uuid; subscription := Some sub;
                  launchIso := truthy (launchIso_field req);
                  dailyTimes :=
                    Some (match dailyTimes_field req with
                          | Array l => l
                          | _ => default_daily_times
                          end);
                  timezone :=
                    Some (or_else (timezone_field req) "Africa/Nairobi");
                  meta := default "{}" (truthy (meta_field req));
                  createdAt := now |}]> (subscriptions st);
              runtimeJobs := runtimeJobs st; triggers := triggers st;
              persisted := persisted st; outbox := outbox st |}))
        as (-> & _).
    - intros other Hother.
      rewrite try_scheduleFor_armed_other; [done | | done].
      by destruct Hst. }
  destruct Hstore as (item & Hsubs & Hothers).
  destruct (unsubscribe_teardown leave _ uuid Hst1 Hreq)
    as (Hok & Hs & Hp & Ha & Hr & Ho & _).
  { rewrite Hsubs, lookup_insert_eq. by eexists. }
  rewrite Hsubs, delete_insert_id in Hs, Hp by done.
  split_and!; try done.
  intros other Hother. destruct (Ho other Hother) as [-> _]. by apply Hothers.
Qed.

Lemma subscribe_then_unsubscribe_restores_store_witness :
  let st1 :=
    snd (subscribe Scenario.utc_server "u9" Scenario.early_september
           Scenario.site_request (initial Scenario.loaded)) in
  let st2 :=
    snd (unsubscribe {| body_id := Some "u9"; query_id := None |} st1) in
  length (armed_for "u9" st1) = 4%nat
  ∧ subscriptions st2 = Scenario.loaded
  ∧ persisted st2 = Scenario.loaded
  ∧ armed_for "u9" st2 = [].
Proof.
  cbv zeta.
  destruct (subscribe_then_unsubscribe_restores_store Scenario.utc_server
              "u9" Scenario.early_september Scenario.site_request
              (initial Scenario.loaded) Scenario.browser
              (initial_consistent _) eq_refl ltac:(discriminate) eq_refl)
    as (_ & H1 & H2 & H3 & _).
  split; [vm_compute; reflexivity |]. by split_and!.
Defined.

End Teardown_on_request.

Section Callback_facts.
Import Js Dispatch Clock Scheduler Api Server.

Lemma sendPushSafely_removed (webpush : Transport) (sub : Subscription)
    (p : Payload) (res : Send_result) :
  sendPushSafely webpush sub p = Normal res → removed res = true →
  ∃ e, webpush sub p = Throw e ∧ gone e = true.
Proof.
  unfold sendPushSafely, try_catch, bind.
  destruct (webpush sub p) as [[] | e]; [by intros [= <-] |].
  destruct (gone e) eqn:Hg; intros [= <-]; [| done].
  intros _. by exists e.
Qed.

(** What a callback does to the store and the file: nothing, or, after
    an answer of 410 or 404, it deletes the record of its owner and
    writes the file. *)
Lemma fire_store (webpush : Transport) (now : Z) (h : nat) (st : State) :
  (subscriptions (fire webpush now h st) = subscriptions st
   ∧ persisted (fire webpush now h st) = persisted st)
  ∨ (∃ t p e, triggers st !! h = Some t ∧ armed t = true
       ∧ webpush (target t) p = Throw e ∧ gone e = true
       ∧ subscriptions (fire webpush now h st)
         = delete (owner t) (subscriptions st)
       ∧ persisted (fire webpush now h st)
         = delete (owner t) (subscriptions st)).
Proof.
  unfold fire.
  destruct (triggers st !! h) as [t |] eqn:Ht; [| by left].
  destruct (armed t) eqn:Ha; [| by left].
  destruct (kind t).
  - destruct (sendPushSafely webpush (target t) launch_payload)
      as [res |] eqn:Hsend; [| by left].
    unfold touch; simpl.
    destruct (runtimeJobs st !! owner t); [| by left].
    destruct (removed res) eqn:Hrem; [| by left].
    destruct (sendPushSafely_removed _ _ _ _ Hsend Hrem) as (e & He & Hg).
    right. by exists t, launch_payload, e.
  - destruct (sendPushSafely webpush (target t) launch_payload)
      as [res |] eqn:Hsend; [| by left].
    destruct (removed res) eqn:Hrem; [| by left].
    destruct (sendPushSafely_removed _ _ _ _ Hsend Hrem) as (e & He & Hg).
    right. by exists t, launch_payload, e.
  - destruct (sendPushSafely webpush (target t) daily_payload)
      as [res |] eqn:Hsend; [| by left].
    unfold touch; simpl.
    destruct (runtimeJobs st !! owner t); [| by left].
    destruct (removed res) eqn:Hrem; [| by left].
    destruct (sendPushSafely_removed _ _ _ _ Hsend Hrem) as (e & He & Hg).
    right. by exists t, daily_payload, e.
Qed.

Lemma fire_outbox (webpush : Transport) (now : Z) (h : nat) (st : State) :
  outbox (fire webpush now h st) = outbox st
  ∨ ∃ t p, triggers st !! h = Some t ∧ armed t = true
      ∧ outbox (fire webpush now h st) = outbox st ++ [(target t, p)].
Proof.
  unfold fire.
  destruct (triggers st !! h) as [t |] eqn:Ht; [| by left].
  destruct (armed t) eqn:Ha; [| by left].
  right. exists t.
  destruct (kind t);
    [exists launch_payload | exists launch_payload | exists daily_payload];
    (split; [done |]); (split; [done |]);
    destruct (sendPushSafely webpush (target t) _) as [res |]; try done;
    unfold touch; simpl;
    try (destruct (runtimeJobs st !! owner t); [| done]);
    by destruct (removed res).
Qed.

Lemma fire_disarmed (webpush : Transport) (now : Z) (h : nat) (st : State)
    (t : Trigger) :
  triggers st !! h = Some t → armed t = false → fire webpush now h st = st.
Proof. intros Ht Ha. unfold fire. by rewrite Ht, Ha. Qed.

Lemma launch_timer_fires_once (webpush : Transport) (now : Z) (h : nat)
    (st : State) (t : Trigger) (due : Z) :
  triggers st !! h = Some t → armed t = true →
  kind t = Launch_timer due →
  triggers (fire webpush now h st) !! h = Some (disarm t).
Proof.
  intros Ht Ha Hk. unfold fire. rewrite Ht, Ha, Hk.
  assert (Hstop : stop h (triggers st) !! h = Some (disarm t)).
  { unfold stop. by rewrite list_lookup_alter_eq, Ht. }
  destruct (sendPushSafely webpush (target t) launch_payload) as [res |];
    [| done].
  unfold touch; simpl.
  destruct (runtimeJobs st !! owner t); [| done].
  by destruct (removed res).
Qed.

Lemma foldl_try_scheduleFor_store (env : Platform) (now : string → Z)
    (l : list string) :
  ∀ st,
    let st' := foldl (fun acc id => try_scheduleFor env (now id) id acc) st l in
    subscriptions st' = subscriptions st ∧ persisted st' = persisted st
    ∧ outbox st' = outbox st.
Proof.
  induction l as [| id l IH]; intros st; [done |].
  simpl. destruct (IH (try_scheduleFor env (now id) id st)) as (-> & -> & ->).
  apply try_scheduleFor_subscriptions.
Qed.

Lemma step_written_through (env : Platform) (st : State) (e : Event) :
  persisted st = subscriptions st →
  persisted (step env st e) = subscriptions (step env st e).
Proof.
  intros Hst. destruct e as [uuid now req | req | webpush now h]; simpl.
  - unfold subscribe.
    destruct (usable (subscription_field req)) as [sub |]; [| done].
    cbn [snd].
    match goal with
    | |- context [try_scheduleFor env now uuid ?s] =>
        destruct (try_scheduleFor_subscriptions env now uuid s)
          as (-> & -> & _)
    end.
    done.
  - unfold unsubscribe.
    destruct (requested_id req) as [id |]; [| done].
    by destruct (_ || _).
  - destruct (fire_store webpush now h st)
      as [[-> ->] | (t & p & e & _ & _ & _ & _ & -> & ->)]; done.
Qed.

(** X3. Throughout every run of the server, from the start-up
    rescheduling on, every armed timer or cron job is listed in the
    runtime entry of its id, every listed handle is a trigger of that
    id, and the file holds exactly the in-memory store. *)
Theorem reachable_states_are_well_formed (env : Platform) (st : State) :
  reachable env st →
  consistent st ∧ persisted st = subscriptions st.
Proof.
  intros Hreach. split; [by eapply reachable_consistent |].
  destruct Hreach as (now & loaded & es & ->). unfold run, boot.
  assert (Hboot :
    persisted (rescheduleAll env now (initial loaded))
    = subscriptions (rescheduleAll env now (initial loaded))).
  { unfold rescheduleAll.
    by destruct (foldl_try_scheduleFor_store env now
                   (map fst (map_to_list (subscriptions (initial loaded))))
                   (initial loaded)) as (-> & -> & _). }
  revert Hboot. generalize (rescheduleAll env now (initial loaded)).
  induction es as [| e es IH]; intros st Hst; [done |].
  simpl. apply IH. by apply step_written_through.
Qed.

Lemma reachable_states_are_well_formed_witness :
  consistent Scenario.subscribed
  ∧ persisted Scenario.subscribed = subscriptions Scenario.subscribed.
Proof.
  apply (reachable_states_are_well_formed Scenario.utc_server).
  exists (fun _ => Scenario.early_september), ∅,
    [Subscribes "u1" Scenario.early_september Scenario.site_request].
  reflexivity.
Defined.

(** X4. The callback of a timer or cron job never arms a trigger and
    never changes which handles a runtime entry lists; it adds no
    record and changes none, and the only record it can delete is that
    of the trigger's own id; it sends at most one message, to the
    subscription the trigger was armed with. *)
Theorem callback_only_disarms_and_forgets (webpush : Transport) (now : Z)
    (h : nat) (st : State) :
  let st' := fire webpush now h st in
  length (triggers st') = length (triggers st)
  ∧ (∀ i t, triggers st' !! i = Some t → armed t = true →
       triggers st !! i = Some t)
  ∧ (∀ id, handles <$> runtimeJobs st' !! id
           = handles <$> runtimeJobs st !! id)
  ∧ (∀ id, subscriptions st' !! id = subscriptions st !! id
           ∨ (subscriptions st' !! id = None
              ∧ ∃ t, triggers st !! h = Some t ∧ owner t = id))
  ∧ (outbox st' = outbox st
     ∨ ∃ t p, triggers st !! h = Some t
         ∧ outbox st' = outbox st ++ [(target t, p)]).
Proof.
  cbv zeta. split_and!.
  - destruct (fire_triggers webpush now h st) as [-> | ->]; [done |].
    unfold stop. by rewrite length_alter.
  - intros i t Hi Ha.
    destruct (decide (i = h)) as [-> | Hne].
    + destruct (fire_triggers webpush now h st) as [Heq | Heq];
        rewrite Heq in Hi; [done |].
      unfold stop in Hi. rewrite list_lookup_alter_eq in Hi.
      destruct (triggers st !! h) as [t0 |]; [| done].
      simpl in Hi. injection Hi as <-. done.
    + by rewrite <- (fire_keeps_other_triggers webpush now h i st Hne).
  - intros id. apply fire_handles.
  - intros id.
    destruct (fire_store webpush now h st)
      as [[-> _] | (t & p & e & Ht & _ & _ & _ & -> & _)]; [by left |].
    destruct (decide (owner t = id)) as [<- | Hne].
    + right. split; [apply lookup_delete_eq | by exists t].
    + left. by apply lookup_delete_ne.
  - destruct (fire_outbox webpush now h st)
      as [-> | (t & p & Ht & _ & ->)]; [by left |].
    right. by exists t, p.
Qed.

(** X5. A launch trigger, whether it was armed as a timeout or as a
    dated cron job, sends at most once: after its callback has run, a
    second run of it changes nothing. *)
Theorem launch_trigger_fires_at_most_once (webpush1 webpush2 : Transport)
    (now1 now2 : Z) (h : nat) (st : State) (t : Trigger) :
  triggers st !! h = Some t →
  is_launch (kind t) = true →
  fire webpush2 now2 h (fire webpush1 now1 h st) = fire webpush1 now1 h st.
Proof.
  intros Ht Hk.
  destruct (armed t) eqn:Ha.
  - apply (fire_disarmed _ _ _ _ (disarm t)); [| done].
    destruct (kind t) as [due | mi hr d mo tz | mm hh tz] eqn:Hkind;
      [| | done].
    + by eapply launch_timer_fires_once.
    + by eapply launch_cron_fires_once.
  - rewrite (fire_disarmed webpush1 now1 h st t Ht Ha).
    by apply (fire_disarmed _ _ _ _ t).
Qed.

Lemma launch_trigger_fires_at_most_once_witness :
  let once :=
    fire Examples.failing_500 (Scenario.early_september + 1) 0
      Scenario.subscribed in
  length (outbox once) = 1%nat
  ∧ fire Examples.failing_500 (Scenario.early_september + 2) 0 once = once.
Proof.
  cbv zeta. split; [vm_compute; reflexivity |].
  eapply (launch_trigger_fires_at_most_once _ _ _ _ 0 Scenario.subscribed);
    vm_compute; reflexivity.
Defined.

(** X6. When the push service does not answer the send of a callback
    with 410 or 404, the callback leaves the store and the file as they
    are, and a daily trigger stays armed for the next day. *)
Theorem failed_send_keeps_subscription (webpush : Transport) (now : Z)
    (h : nat) (st : State) :
  (∀ t p e, triggers st !! h = Some t →
     webpush (target t) p = Throw e → gone e = false) →
  let st' := fire webpush now h st in
  subscriptions st' = subscriptions st
  ∧ persisted st' = persisted st
  ∧ (∀ t, triggers st !! h = Some t → is_launch (kind t) = false →
       triggers st' = triggers st).
Proof.
  intros Hkept. cbv zeta.
  assert (Hstore :
    subscriptions (fire webpush now h st) = subscriptions st
    ∧ persisted (fire webpush now h st) = persisted st).
  { destruct (fire_store webpush now h st)
      as [H | (t & p & e & Ht & _ & He & Hg & _)]; [done |].
    by rewrite (Hkept _ _ _ Ht He) in Hg. }
  destruct Hstore as [Hs Hp]. split_and!; [done | done |].
  intros t Ht Hk. unfold fire. rewrite Ht.
  destruct (armed t); [| done].
  destruct (kind t) as [due | mi hr d mo tz | mm hh tz]; [done | done |].
  destruct (sendPushSafely webpush (target t) daily_payload) as [res |]
    eqn:Hsend; [| done].
  unfold touch; simpl.
  destruct (runtimeJobs st !! owner t); [| done].
  destruct (removed res) eqn:Hrem; [| done].
  destruct (sendPushSafely_removed _ _ _ _ Hsend Hrem) as (e & He & Hg).
  by rewrite (Hkept _ _ _ Ht He) in Hg.
Qed.

Lemma failed_send_keeps_subscription_witness :
  let st' :=
    fire Examples.failing_500 (Scenario.early_september + 1) 1
      Scenario.subscribed in
  subscriptions st' = subscriptions Scenario.subscribed
  ∧ persisted st' = persisted Scenario.subscribed
  ∧ triggers st' = triggers Scenario.subscribed
  ∧ length (outbox st') = 1%nat.
Proof.
  cbv zeta.
  destruct (failed_send_keeps_subscription Examples.failing_500
              (Scenario.early_september + 1) 1 Scenario.subscribed)
    as (H1 & H2 & H3).
  { intros t p e _ [= <-]. reflexivity. }
  split_and!; [done | done | | vm_compute; reflexivity].
  eapply H3; vm_compute; reflexivity.
Defined.

End Callback_facts.

Section Scheduling_frame.
Import Js Dispatch Clock Planner Scheduler Api Server.

Lemma planned_launch_cases (host : Host) (now : Z) (tz : string)
    (iso : option string) (k : Kind) :
  planned_launch host now tz iso = Some k →
  ∃ launchDate,
    truthy iso ≫= Date_parse host = Some launchDate
    ∧ (now < launchDate)%Z
    ∧ ((k = Launch_timer launchDate ∧ (launchDate - now < max_delay)%Z)
       ∨ (k = Launch_cron (getMinutes host launchDate)
                          (getHours host launchDate)
                          (getDate host launchDate)
                          (getMonth host launchDate + 1) tz
          ∧ (max_delay <= launchDate - now)%Z)).
Proof.
  unfold planned_launch.
  destruct (truthy iso ≫= Date_parse host) as [launchDate |]; [| done].
  destruct (Z.ltb_spec now launchDate) as [Hlt | Hge]; [| done].
  intros [= <-]. exists launchDate. split_and!; [done | done |].
  destruct (Z.ltb_spec (launchDate - now) max_delay); [by left | by right].
Qed.

Lemma planned_trigger_kind (env : Platform) (now : Z) (id : string)
    (st : State) (t : Trigger) :
  t ∈ planned_triggers env now id st →
  ∃ item sub, subscriptions st !! id = Some item
    ∧ subscription item = Some sub ∧ target t = sub
    ∧ kind t ∈ plan env now item.
Proof.
  unfold planned_triggers.
  destruct (subscriptions st !! id) as [item |]; [| by intros ?%elem_of_nil].
  destruct (subscription item) as [sub |] eqn:Hsub;
    [| by intros ?%elem_of_nil].
  intros (k & -> & Hk)%list_elem_of_fmap.
  exists item, sub. split_and!; try done. cbn [kind new_trigger].
  destruct (until_rejected_prefix (accepts env) (plan env now item))
    as [rest Hrest].
  rewrite Hrest. apply elem_of_app. by left.
Qed.

(** X7. After [scheduleFor], an armed launch trigger of the id is a
    timeout only when the launch lies less than 2147483647 ms ahead, so
    the delay handed to [setTimeout] is always within its limit; at or
    beyond that distance the launch is armed as a cron job on the local
    reading of the launch date, in the zone of the record. *)
Theorem launch_timeout_stays_within_limit (env : Platform) (now : Z)
    (id : string) (st : State) (t : Trigger) :
  consistent st →
  t ∈ armed_for id (try_scheduleFor env now id st) →
  is_launch (kind t) = true →
  ∃ item launchDate,
    subscriptions st !! id = Some item
    ∧ truthy (launchIso item) ≫= Date_parse env = Some launchDate
    ∧ (0 < launchDate - now)%Z
    ∧ ((kind t = Launch_timer launchDate
        ∧ (launchDate - now < 2147483647)%Z)
       ∨ (kind t = Launch_cron (getMinutes env launchDate)
                               (getHours env launchDate)
                               (getDate env launchDate)
                               (getMonth env launchDate + 1)
                               (or_else (timezone item) "Africa/Nairobi")
          ∧ (2147483647 <= launchDate - now)%Z)).
Proof.
  intros [Htr _] Hin Hk.
  rewrite try_scheduleFor_armed_for in Hin by done.
  destruct (planned_trigger_kind env now id st t Hin)
    as (item & sub & Hid & Hsub & _ & Hplan).
  unfold plan in Hplan. apply elem_of_app in Hplan as [Hl | Hd].
  - destruct (planned_launch env now _ (launchIso item)) as [k |] eqn:Hpl;
      [| by apply elem_of_nil in Hl].
    apply list_elem_of_singleton in Hl. rewrite <- Hl in Hpl.
    destruct (planned_launch_cases _ _ _ _ _ Hpl)
      as (launchDate & Hparse & Hlt & Hcases).
    exists item, launchDate. split_and!; [done | done | lia |].
    exact Hcases.
  - unfold planned_daily in Hd.
    apply list_elem_of_fmap in Hd as (hm & Heq & _).
    by rewrite Heq in Hk.
Qed.

Lemma launch_timeout_stays_within_limit_witness :
  let st :=
    try_scheduleFor Scenario.utc_server Scenario.early_september "u1"
      (initial Scenario.loaded) in
  let st' :=
    try_scheduleFor Scenario.utc_server Scenario.early_august "u1"
      (initial Scenario.loaded) in
  kind <$> armed_launch "u1" st
    = [Launch_timer (instant_of 0 Scenario.launch_reading)]
  ∧ (0 < instant_of 0 Scenario.launch_reading - Scenario.early_september
       < 2147483647)%Z
  ∧ kind <$> armed_launch "u1" st' = [Launch_cron 0 0 13 9 "Africa/Nairobi"].
Proof.
  cbv zeta.
  destruct (launch_timeout_stays_within_limit Scenario.utc_server
              Scenario.early_september "u1" (initial Scenario.loaded)
              (new_trigger "u1"
                 (Launch_timer (instant_of 0 Scenario.launch_reading))
                 Scenario.browser)
              (initial_consistent _))
    as (item & launchDate & _ & _ & Hpos & [[Hk Hlim] | [Hk _]]).
  - vm_compute. apply list_elem_of_here.
  - reflexivity.
  - simpl in Hk. injection Hk as <-.
    split; [vm_compute; reflexivity |]. split; [lia |].
    vm_compute; reflexivity.
  - discriminate Hk.
Defined.

(** X8. [scheduleFor] for one id does not touch the store, the file or
    the transport, and leaves the armed triggers and the runtime entry
    of every other id as they are. *)
Theorem scheduling_one_id_leaves_the_others (env : Platform) (now : Z)
    (id : string) (st : State) :
  consistent st →
  let st' := try_scheduleFor env now id st in
  subscriptions st' = subscriptions st
  ∧ persisted st' = persisted st
  ∧ outbox st' = outbox st
  ∧ (∀ other, other ≠ id →
       armed_for other st' = armed_for other st
       ∧ runtimeJobs st' !! other = runtimeJobs st !! other).
Proof.
  intros [_ Hown]. cbv zeta.
  destruct (try_scheduleFor_subscriptions env now id st) as (Hs & Hp & Ho).
  split_and!; [done | done | done |].
  intros other Hne. split.
  - by apply try_scheduleFor_armed_other.
  - destruct (scheduleFor_shape env now id st) as (r & -> & _).
    simpl. by apply lookup_insert_ne.
Qed.

Lemma scheduling_one_id_leaves_the_others_witness :
  let st :=
    try_scheduleFor Scenario.utc_server Scenario.early_september "u2"
      (initial Scenario.loaded) in
  let st' :=
    try_scheduleFor Scenario.utc_server Scenario.early_september "u1" st in
  length (armed_for "u1" st') = 4%nat
  ∧ length (armed_for "u2" st) = 2%nat
  ∧ armed_for "u2" st' = armed_for "u2" st
  ∧ subscriptions st' = Scenario.loaded.
Proof.
  cbv zeta.
  destruct (scheduling_one_id_leaves_the_others Scenario.utc_server
              Scenario.early_september "u1"
              (try_scheduleFor Scenario.utc_server Scenario.early_september
                 "u2" (initial Scenario.loaded)))
    as (Hs & _ & _ & Ho).
  { apply try_scheduleFor_consistent, initial_consistent. }
  destruct (Ho "u2" ltac:(discriminate)) as [Ha _].
  split_and!; [vm_compute; reflexivity | vm_compute; reflexivity | done |].
  rewrite Hs. by destruct (try_scheduleFor_subscriptions Scenario.utc_server
    Scenario.early_september "u2" (initial Scenario.loaded)) as (-> & _).
Defined.



End Scheduling_frame.

Section Daily_text_facts.
Import Planner Daily_text.

Lemma split_colon_free (a : string) :
  colon_free a = true → split_colon a = [a].
Proof.
  induction a as [| c a IH]; [done |]. simpl.
  destruct (Ascii.eqb c ":"); [done |]. simpl.
  intros Ha. by rewrite (IH Ha).
Qed.

Lemma split_colon_first (a r : string) :
  colon_free a = true →
  split_colon (String.append a (String ":" r)) = a :: split_colon r.
Proof.
  induction a as [| c a IH]; [done |]. simpl.
  destruct (Ascii.eqb c ":"); [done |]. simpl.
  intros Ha. by rewrite (IH Ha).
Qed.

(** X10. Of a daily time only the text before the second colon is
    read: an entry without a colon is skipped, whatever follows a
    second colon is ignored, and hour and minute are whatever
    [parseInt] reads from the first two fields, with no check that they
    name a time of day. *)
Theorem daily_time_reads_two_fields (a b rest : string) (hh mm : Z) :
  colon_free a = true →
  colon_free b = true →
  parseInt a = Some hh →
  parseInt b = Some mm →
  Number_isFinite (Some hh) = true →
  Number_isFinite (Some mm) = true →
  (∀ s, colon_free s = true → parse_hhmm s = None)
  ∧ parse_hhmm (String.append a (String ":" b)) = Some (hh, mm)
  ∧ parse_hhmm
      (String.append a (String ":" (String.append b (String ":" rest))))
    = Some (hh, mm).
Proof.
  intros Ha Hb Hhh Hmm Hfh Hfm. split.
  - intros s Hs. unfold parse_hhmm. rewrite split_colon_free by done.
    cbn -[Number_isFinite parseInt].
    change (negb (Number_isFinite None)) with true.
    by rewrite orb_true_r.
  - unfold parse_hhmm.
    rewrite !split_colon_first, !split_colon_free by done.
    cbn -[Number_isFinite parseInt]. rewrite Hhh, Hmm.
    cbn -[Number_isFinite]. rewrite Hfh, Hfm.
    by split.
Qed.

Lemma daily_time_reads_two_fields_witness :
  parse_hhmm "0900" = None
  ∧ parse_hhmm "25:99" = Some (25, 99)%Z
  ∧ parse_hhmm "25:99:30" = Some (25, 99)%Z.
Proof.
  destruct (daily_time_reads_two_fields "25" "99" "30" 25 99)
    as (H1 & H2 & H3); try (vm_compute; reflexivity).
  split; [by apply H1 |]. by split.
Defined.

End Daily_text_facts.

Section Admin_facts.
Import Js Dispatch Clock Scheduler Api Admin.

Lemma subscribe_store (env : Platform) (uuid : string) (now : Z)
    (req : Subscribe_body) (st : State) (sub : Subscription) :
  usable (subscription_field req) = Some sub →
  ∃ item,
    subscriptions (snd (subscribe env uuid now req st))
    = <[uuid := item]> (subscriptions st)
    ∧ subscription item = Some sub.
Proof.
  intros Hsub. unfold subscribe. rewrite Hsub. cbn [snd].
  match goal with
  | |- context [<[uuid := ?i]> (subscriptions st)] => exists i
  end.
  split; [| done].
  match goal with
  | |- context [try_scheduleFor env now uuid ?s] =>
      by destruct (try_scheduleFor_subscriptions env now uuid s) as (-> & _)
  end.
Qed.

(** X11. A test send from the admin page changes neither the store,
    the file, the runtime registry nor any trigger, whatever the push
    service answers, so a 410 on a test send does not remove the
    subscription; the page answers 'Invalid id' exactly when the id is
    empty or names neither a record nor an inherited property, and a
    stored record with a subscription gets exactly one send, of the
    test message. *)
Theorem test_send_never_prunes (webpush : Transport) (id : option string)
    (st : State) :
  let page := fst (sendTest webpush id st) in
  let st' := snd (sendTest webpush id st) in
  subscriptions st' = subscriptions st
  ∧ persisted st' = persisted st
  ∧ runtimeJobs st' = runtimeJobs st
  ∧ triggers st' = triggers st
  ∧ page ≠ Unhandled
  ∧ (page = Invalid_id
     ↔ ∀ k, truthy id = Some k →
         subscriptions st !! k = None ∧ inherited k = false)
  ∧ (∀ k item sub,
       truthy id = Some k → subscriptions st !! k = Some item →
       subscription item = Some sub →
       outbox st' = outbox st ++ [(sub, test_payload)]).
Proof.
  cbv zeta. unfold sendTest.
  destruct (truthy id) as [k |]; [| by split_and!].
  destruct (subscriptions st !! k) as [item |] eqn:Hk.
  - destruct (subscription item) as [sub |] eqn:Hsub.
    + destruct (sendPushSafely_normal webpush sub test_payload)
        as [res ->].
      cbn [fst snd]. split_and!; try done.
      * split; [done |]. intros H.
        destruct (H k eq_refl) as [H1 _]. congruence.
      * intros k' item' sub' [= <-]. rewrite Hk. intros [= <-].
        rewrite Hsub. by intros [= <-].
    + cbn [fst snd]. split_and!; try done.
      * split; [done |]. intros H.
        destruct (H k eq_refl) as [H1 _]. congruence.
      * intros k' item' sub' [= <-]. rewrite Hk. intros [= <-].
        by rewrite Hsub.
  - destruct (inherited k) eqn:Hinh; cbn [fst snd]; split_and!; try done.
    + split; [done |]. intros H.
      destruct (H k eq_refl) as [_ H2]. congruence.
    + intros k' item' sub' [= <-]. by rewrite Hk.
    + split; [| done]. by intros _ k' [= <-].
    + intros k' item' sub' [= <-]. by rewrite Hk.
Qed.

Lemma test_send_never_prunes_witness :
  let r := sendTest Scenario.gone_410 (Some "u1") Scenario.subscribed in
  fst r = Redirect_admin
  ∧ subscriptions (snd r) = subscriptions Scenario.subscribed
  ∧ outbox (snd r) = [(Scenario.browser, test_payload)]
  ∧ fst (sendTest Scenario.gone_410 (Some "nobody") Scenario.subscribed)
    = Invalid_id.
Proof.
  cbv zeta.
  destruct (test_send_never_prunes Scenario.gone_410 (Some "u1")
              Scenario.subscribed) as (H1 & _ & _ & _ & _ & _ & H2).
  split_and!; [vm_compute; reflexivity | done | | vm_compute; reflexivity].
  rewrite (H2 "u1" _ Scenario.browser eq_refl ltac:(vm_compute; reflexivity)
             eq_refl).
  vm_compute; reflexivity.
Defined.

(** X12. The count reported by [/api/health], which is also the number
    of rows of the admin table, follows the store: a subscribe under a
    fresh id adds one, and unsubscribing that id takes it away again. *)
Theorem health_counts_stored_records (env : Platform) (uuid : string)
    (now : Z) (req : Subscribe_body) (st : State) (sub : Subscription)
    (leave : Unsubscribe_request) :
  usable (subscription_field req) = Some sub →
  subscriptions st !! uuid = None →
  requested_id leave = Some uuid →
  let st1 := snd (subscribe env uuid now req st) in
  length (admin_list st) = health st
  ∧ health st1 = S (health st)
  ∧ length (admin_list st1) = S (health st)
  ∧ health (snd (unsubscribe leave st1)) = health st.
Proof.
  intros Hsub Hfresh Hleave. cbv zeta.
  destruct (subscribe_store env uuid now req st sub Hsub) as (item & Hs & _).
  assert (Hlen : ∀ s, length (admin_list s) = health s).
  { intros s. unfold admin_list, health.
    by rewrite !length_fmap, length_map_to_list. }
  assert (H1 : health (snd (subscribe env uuid now req st)) = S (health st)).
  { unfold health. rewrite Hs. by apply map_size_insert_None. }
  split_and!; [done | done | by rewrite Hlen |].
  rewrite (unsubscribe_known leave _ uuid Hleave)
    by (rewrite Hs, lookup_insert_eq; by eexists).
  unfold health; simpl. rewrite Hs, delete_insert_id by done. done.
Qed.

Lemma health_counts_stored_records_witness :
  let st1 :=
    snd (subscribe Scenario.utc_server "u9" Scenario.early_september
           Scenario.bare_request (initial Scenario.loaded)) in
  let leave := {| body_id := None; query_id := Some "u9" |} in
  health (initial Scenario.loaded) = 2%nat
  ∧ health st1 = 3%nat
  ∧ health (snd (unsubscribe leave st1)) = 2%nat.
Proof.
  cbv zeta.
  destruct (health_counts_stored_records Scenario.utc_server "u9"
              Scenario.early_september Scenario.bare_request
              (initial Scenario.loaded) Scenario.browser
              {| body_id := None; query_id := Some "u9" |}
              eq_refl eq_refl eq_refl)
    as (_ & H1 & _ & H2).
  assert (H0 : health (initial Scenario.loaded) = 2%nat)
    by (vm_compute; reflexivity).
  rewrite H0 in H1, H2. by split_and!.
Defined.

End Admin_facts.

Section Silence_facts.
Import Js Dispatch Clock Scheduler Api Server.

Lemma imap_stopped_by_silent (id : string) (hs : list nat)
    (ts : list Trigger) :
  filter (fun t => live_for id t = true) ts = [] →
  filter (fun t => live_for id t = true) (imap (stopped_by hs) ts) = [].
Proof.
  intros Hnone. apply filter_imap_none. intros i t Ht Hlive.
  apply live_for_spec in Hlive as [Harmed Howner].
  rewrite stopped_by_owner in Howner.
  apply stopped_by_armed in Harmed as [Harmed _].
  apply (filter_nil_not_elem_of _ _ t Hnone).
  - apply live_for_spec. by split.
  - by eapply list_elem_of_lookup_2.
Qed.

Lemma subscribe_frame (env : Platform) (uuid : string) (now : Z)
    (req : Subscribe_body) (st : State) (other : string) :
  owned st → other ≠ uuid →
  let st' := snd (subscribe env uuid now req st) in
  subscriptions st' !! other = subscriptions st !! other
  ∧ armed_for other st' = armed_for other st
  ∧ runtimeJobs st' !! other = runtimeJobs st !! other
  ∧ outbox st' = outbox st.
Proof.
  intros Hown Hne. cbv zeta. unfold subscribe.
  destruct (usable (subscription_field req)) as [sub |]; [| done].
  cbn [snd].
  match goal with
  | |- context [try_scheduleFor env now uuid ?s] => set (st1 := s)
  end.
  assert (Hown1 : owned st1) by exact Hown.
  destruct (try_scheduleFor_subscriptions env now uuid st1) as (-> & _ & ->).
  rewrite (try_scheduleFor_armed_other env now uuid other st1) by done.
  destruct (scheduleFor_shape env now uuid st1) as (r & -> & _).
  simpl. rewrite !lookup_insert_ne by done. done.
Qed.

(** What holds of an id that has been unsubscribed: the state is
    well formed, no trigger of the id is armed, and the store has no
    record of it. *)
Lemma silent_step (env : Platform) (id : string) (st : State) (e : Event) :
  (∀ uuid now req, e = Subscribes uuid now req → uuid ≠ id) →
  consistent st ∧ armed_for id st = [] ∧ subscriptions st !! id = None →
  consistent (step env st e)
  ∧ armed_for id (step env st e) = []
  ∧ subscriptions (step env st e) !! id = None.
Proof.
  intros Hother (Hst & Hnone & Hgone).
  split; [by apply step_consistent |].
  destruct e as [uuid now req | req | webpush now h]; simpl.
  - assert (Hne : id ≠ uuid).
    { intros ->. by eapply Hother. }
    destruct (subscribe_frame env uuid now req st id) as (-> & -> & _);
      [apply Hst | done | done].
  - unfold unsubscribe.
    destruct (requested_id req) as [id' |]; [| done].
    destruct (_ || _); [| done]. cbn [snd]. unfold armed_for; simpl.
    split.
    + rewrite cleared_imap. by apply imap_stopped_by_silent.
    + destruct (decide (id' = id)) as [-> | Hne].
      * apply lookup_delete_eq.
      * by rewrite lookup_delete_ne.
  - split.
    + unfold armed_for.
      destruct (fire_triggers webpush now h st) as [-> | ->]; [done |].
      rewrite stop_imap. by apply imap_stopped_by_silent.
    + destruct (fire_store webpush now h st)
        as [[-> _] | (t & p & e & _ & _ & _ & _ & -> & _)]; [done |].
      destruct (decide (owner t = id)) as [-> | Hne].
      * apply lookup_delete_eq.
      * by rewrite lookup_delete_ne.
Qed.

(** X21. Unsubscribing is final: once a stored id has been
    unsubscribed, then whatever requests arrive and whatever triggers
    fire afterwards, as long as no subscribe is given that same id
    again, no timer or cron job of the id is ever armed, so none can
    send, and the store never holds a record of it. *)
Theorem unsubscribed_id_stays_silent (env : Platform) (req : Unsubscribe_request)
    (st : State) (id : string) (item : Item) (es : list Event) :
  consistent st →
  requested_id req = Some id →
  subscriptions st !! id = Some item →
  Forall (fun e => ∀ uuid now r, e = Subscribes uuid now r → uuid ≠ id) es →
  let st' := run env (snd (unsubscribe req st)) es in
  armed_for id st' = []
  ∧ subscriptions st' !! id = None
  ∧ consistent st'.
Proof.
  intros Hst Hreq Hid Hes. cbv zeta.
  assert (Hstart :
    consistent (snd (unsubscribe req st))
    ∧ armed_for id (snd (unsubscribe req st)) = []
    ∧ subscriptions (snd (unsubscribe req st)) !! id = None).
  { split; [by apply unsubscribe_consistent |].
    destruct (unsubscribe_teardown req st id Hst Hreq)
      as (_ & -> & _ & -> & _); [by rewrite Hid |].
    split; [done | apply lookup_delete_eq]. }
  revert Hstart. generalize (snd (unsubscribe req st)). unfold run.
  induction Hes as [| e es He _ IH]; intros st0 Hst0.
  { destruct Hst0 as (? & ? & ?). by split_and!. }
  simpl. apply IH. by apply silent_step.
Qed.

Lemma unsubscribed_id_stays_silent_witness :
  let leave := {| body_id := Some "u1"; query_id := None |} in
  let later :=
    [Fires Examples.failing_500 (Scenario.early_september + 1) 1;
     Subscribes "u2" (Scenario.early_september + 2) Scenario.bare_request;
     Fires Scenario.gone_410 (Scenario.early_september + 3) 0] in
  let st' :=
    run Scenario.utc_server (snd (unsubscribe leave Scenario.subscribed))
      later in
  length (armed_for "u1" Scenario.subscribed) = 4%nat
  ∧ armed_for "u1" st' = []
  ∧ subscriptions st' !! "u1" = None
  ∧ length (armed_for "u2" st') = 3%nat
  ∧ outbox st' = [].
Proof.
  cbv zeta.
  destruct (unsubscribed_id_stays_silent Scenario.utc_server
              {| body_id := Some "u1"; query_id := None |}
              Scenario.subscribed "u1" _
              [Fires Examples.failing_500 (Scenario.early_september + 1) 1;
               Subscribes "u2" (Scenario.early_september + 2)
                 Scenario.bare_request;
               Fires Scenario.gone_410 (Scenario.early_september + 3) 0]
              ltac:(apply subscribe_consistent, initial_consistent)
              eq_refl ltac:(vm_compute; reflexivity))
    as (H1 & H2 & _).
  { repeat constructor; intros uuid now r Heq; try discriminate Heq.
    injection Heq as <- _ _. discriminate. }
  split_and!; [vm_compute; reflexivity | done | done
              | vm_compute; reflexivity | vm_compute; reflexivity].
Defined.

(** X22. A subscribe request never disturbs another subscriber: under
    whatever id it stores its record, the record, the armed triggers
    and the runtime entry of every other id are as before and nothing
    is sent; a body without a usable subscription is answered 400 and
    changes nothing at all. *)
Theorem subscribe_leaves_other_subscribers (env : Platform) (uuid : string)
    (now : Z) (req : Subscribe_body) (st : State) :
  consistent st →
  let r := subscribe env uuid now req st in
  (usable (subscription_field req) = None →
     status (fst r) = 400%Z ∧ snd r = st)
  ∧ (is_Some (usable (subscription_field req)) →
       status (fst r) = 200%Z ∧ assigned (fst r) = Some uuid
       ∧ is_Some (subscriptions (snd r) !! uuid))
  ∧ (∀ other, other ≠ uuid →
       subscriptions (snd r) !! other = subscriptions st !! other
       ∧ armed_for other (snd r) = armed_for other st
       ∧ runtimeJobs (snd r) !! other = runtimeJobs st !! other)
  ∧ outbox (snd r) = outbox st.
Proof.
  intros [_ Hown]. cbv zeta. split_and!.
  - intros Hno. unfold subscribe. by rewrite Hno.
  - intros [sub Hsub].
    destruct (subscribe_store env uuid now req st sub Hsub) as (item & Hs & _).
    rewrite Hs, lookup_insert_eq. unfold subscribe. rewrite Hsub.
    by split_and!.
  - intros other Hne.
    by destruct (subscribe_frame env uuid now req st other Hown Hne)
      as (? & ? & ? & _).
  - unfold subscribe.
    destruct (usable (subscription_field req)) as [sub |]; [| done].
    cbn [snd].
    match goal with
    | |- context [try_scheduleFor env now uuid ?s] =>
        by destruct (try_scheduleFor_subscriptions env now uuid s)
          as (_ & _ & ->)
    end.
Qed.

Lemma subscribe_leaves_other_subscribers_witness :
  let r :=
    subscribe Scenario.utc_server "u2" (Scenario.early_september + 2)
      Scenario.bare_request Scenario.subscribed in
  status (fst r) = 200%Z
  ∧ armed_for "u1" (snd r) = armed_for "u1" Scenario.subscribed
  ∧ subscriptions (snd r) !! "u1" = subscriptions Scenario.subscribed !! "u1"
  ∧ length (armed_for "u2" (snd r)) = 3%nat.
Proof.
  cbv zeta.
  destruct (subscribe_leaves_other_subscribers Scenario.utc_server "u2"
              (Scenario.early_september + 2) Scenario.bare_request
              Scenario.subscribed
              ltac:(apply subscribe_consistent, initial_consistent))
    as (_ & H1 & H2 & _).
  destruct (H1 ltac:(by eexists)) as (Hstatus & _).
  destruct (H2 "u1" ltac:(discriminate)) as (Hs & Ha & _).
  split_and!; [done | done | done | vm_compute; reflexivity].
Defined.

End Silence_facts.

(** * Properties of the endpoint-keyed server variant *)

Section Endpoint_server_facts.
Import Js Dispatch Scheduler Api Endpoint_variant Endpoint_server.

(** With writes that succeed, the handler is that of
    [Endpoint_variant]. *)
Lemma unsubscribe_writable (payload : option Body) (c : Cache) :
  Endpoint_server.unsubscribe true payload c
  = Endpoint_variant.unsubscribe payload c.
Proof.
  unfold Endpoint_server.unsubscribe, Endpoint_variant.unsubscribe.
  destruct (requested_endpoint payload) as [e |]; [| done].
  f_equal. unfold saveSubscriptions, assign.
  by destruct (Nat.eqb _ _).
Qed.

Lemma existsb_endpoint (e : string) (l : list Subscription) :
  existsb (fun s => String.eqb (endpoint s) e) l = true
  ↔ e ∈ endpoint <$> l.
Proof.
  rewrite existsb_exists, list_elem_of_fmap. split.
  - intros (s & Hin & Heq). exists s. split.
    + symmetry. by apply String.eqb_eq.
    + by apply list_elem_of_In.
  - intros (s & -> & Hin). exists s. split.
    + by apply list_elem_of_In.
    + apply String.eqb_refl.
Qed.

Lemma truthy_nonempty (v : option string) (e : string) :
  truthy v = Some e → e ≠ EmptyString.
Proof.
  unfold truthy. destruct v as [s |]; [| done].
  destruct (String.eqb_spec s EmptyString); [done |]. by intros [= <-].
Qed.

Lemma requested_endpoint_nonempty (payload : option Body) (e : string) :
  requested_endpoint payload = Some e → e ≠ EmptyString.
Proof.
  unfold requested_endpoint. destruct payload as [b |]; [| done].
  destruct (truthy (endpoint_field b)) as [e' |] eqn:He.
  - intros [= <-]. by eapply truthy_nonempty.
  - apply truthy_nonempty.
Qed.

Lemma NoDup_endpoints_filter (P : Subscription → Prop)
    `{!∀ s, Decision (P s)} (l : list Subscription) :
  NoDup (endpoint <$> l) → NoDup (endpoint <$> filter P l).
Proof.
  intros Hl. eapply sublist_NoDup; [exact Hl |].
  apply fmap_sublist, sublist_filter.
Qed.

(** What [subscribe] does with a body that passes the validation. *)
Lemma subscribe_valid (w : bool)
    (payload : option Subscribe_payload) (c : Cache)
    (o : Raw_subscription) :
  selected payload = Some o → isValidSubscription (Some o) = true →
  subscribe w payload c
  = ({| status := 201; success := Some true;
        assigned := Some (endpoint (stored o)); error := None |},
     if bool_decide (endpoint (stored o) ∈ endpoint <$> cached c) then c
     else {| cached := cached c ++ [stored o];
             saved := if w then cached c ++ [stored o] else saved c |}).
Proof.
  intros Hsel Hvalid. unfold subscribe.
  rewrite Hsel, Hvalid. f_equal.
  destruct (existsb _ (cached c)) eqn:Hex.
  - apply existsb_endpoint in Hex. by rewrite bool_decide_eq_true_2.
  - rewrite bool_decide_eq_false_2; [done |].
    intros Hin%existsb_endpoint. congruence.
Qed.

Lemma subscribe_invalid (w : bool)
    (payload : option Subscribe_payload) (c : Cache) :
  isValidSubscription (selected payload) = false →
  subscribe w payload c
  = ({| status := 400; success := Some false; assigned := None;
        error := Some "Invalid subscription object" |}, c).
Proof.
  unfold subscribe.
  destruct (selected payload) as [o |]; [| done].
  by intros ->.
Qed.

Lemma report_throws (webpush : Transport) (p : Payload)
    (s : Subscription) :
  report webpush p s
  = if rejected_nullish webpush p s
    then Throw type_error
    else Normal {| reported := endpoint s;
                   ok :=
                     match webpush s p with
                     | Normal _ => true
                     | Throw _ => false
                     end;
                   remove :=
                     answered_gone webpush p s |}.
Proof.
  unfold report, rejected_nullish,
    answered_gone.
  by destruct (webpush s p) as [[] | [| | o]].
Qed.

Lemma all_of_reports (webpush : Transport) (p : Payload)
    (l : list Subscription) :
  Forall (fun s => rejected_nullish webpush p s = false) l →
  ∃ rs,
    all_of (report webpush p <$> l)
    = Normal rs
    ∧ toRemove rs
      = endpoint
          <$> filter (fun s => answered_gone webpush p s = true)
                     l.
Proof.
  induction 1 as [| s l Hs _ (rs & IH & Hrem)]; [by exists [] |].
  rewrite fmap_cons. cbn [all_of].
  rewrite report_throws, Hs, IH.
  eexists. split; [done |].
  unfold toRemove in *.
  rewrite !filter_cons. cbn [remove].
  destruct (answered_gone webpush p s) eqn:Hg.
  - rewrite !decide_True by done. rewrite !fmap_cons. by rewrite Hrem.
  - rewrite !decide_False by done. done.
Qed.

Lemma all_of_rejects (webpush : Transport) (p : Payload)
    (l : list Subscription) :
  Exists (fun s => rejected_nullish webpush p s = true) l →
  all_of (report webpush p <$> l)
  = Throw type_error.
Proof.
  induction l as [| s l IH]; [by intros ?%Exists_nil |].
  intros Hex. rewrite fmap_cons. cbn [all_of].
  rewrite report_throws.
  destruct (rejected_nullish webpush p s) eqn:Hs; [done |].
  apply Exists_cons in Hex as [Hhead | Htail]; [congruence |].
  by rewrite (IH Htail).
Qed.

Lemma filter_not_in_nil (l : list Subscription) :
  filter (fun s => endpoint s ∉ @nil string) l = l.
Proof. apply filter_all, Forall_forall. intros s _. apply not_elem_of_nil. Qed.

(** The outcome of a run in which no send rejects with [null]. *)
Lemma sendCountdownNotification_normal (webpush : Transport)
    (p : Payload) (w : bool) (c : Cache) :
  Forall (fun s => rejected_nullish webpush p s = false)
         (cached c) →
  let gone_endpoints :=
    endpoint <$> filter (fun s => answered_gone webpush p s = true)
                        (cached c) in
  let kept := filter (fun s => endpoint s ∉ gone_endpoints) (cached c) in
  sendCountdownNotification webpush p w c
  = Normal {| cached := kept;
              saved := match gone_endpoints with
                       | [] => saved c
                       | _ => if w then kept else saved c
                       end |}.
Proof.
  intros Hall. cbv zeta. unfold sendCountdownNotification.
  destruct (all_of_reports webpush p (cached c) Hall) as (rs & -> & ->).
  destruct (cached c) as [| s l] eqn:Hc.
  { destruct c as [l0 sv]; simpl in *. by rewrite Hc. }
  rewrite <- Hc.
  destruct (endpoint <$> filter _ (cached c)) as [| e es] eqn:Hgone.
  - rewrite filter_not_in_nil. by destruct c.
  - done.
Qed.

(** X14. The cache never holds two subscriptions with the same
    endpoint once it holds none: subscribing, unsubscribing and the
    pruning after a countdown run each keep the endpoints distinct. *)
Theorem endpoints_stay_distinct (w : bool) (c : Cache) :
  NoDup (endpoint <$> cached c) →
  (∀ payload,
     NoDup (endpoint <$> cached (snd (subscribe w payload c))))
  ∧ (∀ payload,
       NoDup (endpoint
                <$> cached (snd (unsubscribe w payload c))))
  ∧ (∀ webpush p c',
       sendCountdownNotification webpush p w c = Normal c' →
       NoDup (endpoint <$> cached c')).
Proof.
  intros Hc. split_and!.
  - intros payload.
    destruct (isValidSubscription (selected payload)) eqn:Hv.
    + destruct (selected payload) as [o |] eqn:Hsel;
        [| done].
      rewrite (subscribe_valid w payload c o Hsel Hv). cbn [snd].
      destruct (decide (endpoint (stored o) ∈ endpoint <$> cached c))
        as [Hin | Hout].
      * by rewrite bool_decide_eq_true_2.
      * rewrite bool_decide_eq_false_2 by done. cbn [cached].
        rewrite fmap_app. apply NoDup_app. split_and!; [done | |].
        -- intros e He ->%list_elem_of_singleton. done.
        -- apply NoDup_singleton.
    + by rewrite subscribe_invalid.
  - intros payload. unfold unsubscribe.
    destruct (requested_endpoint payload) as [e |]; [| done].
    cbn [snd].
    destruct (Nat.eqb _ _); cbn [cached assign
      saveSubscriptions]; by apply NoDup_endpoints_filter.
  - intros webpush p c'. unfold sendCountdownNotification.
    destruct (cached c) as [| s l] eqn:Hl; [intros [= <-]; by rewrite Hl |].
    rewrite <- Hl. rewrite <- Hl in Hc.
    destruct (all_of _) as [rs |]; [| done].
    destruct (toRemove rs) as [| e es];
      [by intros [= <-] |].
    intros [= <-]. cbn [cached assign
      saveSubscriptions].
    by apply NoDup_endpoints_filter.
Qed.

Lemma endpoints_stay_distinct_witness :
  NoDup (endpoint <$> cached Scenario.cache)
  ∧ NoDup (endpoint
             <$> cached (snd (subscribe true
                                (Some Examples.raw_body) Scenario.cache)))
  ∧ length (cached (snd (subscribe true
                           (Some Examples.raw_body) Scenario.cache)))
    = 2%nat.
Proof.
  assert (H : NoDup (endpoint <$> cached Scenario.cache))
    by apply NoDup_singleton.
  destruct (endpoints_stay_distinct true Scenario.cache H) as (Hs & _).
  split_and!; [done | apply Hs | vm_compute; reflexivity].
Defined.

(** X15. Subscribing is idempotent: a second request with the same body
    gets the same answer and changes nothing, whether or not the write
    of the first one succeeded, so a list whose write failed is not
    written by the retry either. *)
Theorem subscribing_twice_is_subscribing_once (w w' : bool)
    (payload : option Subscribe_payload) (c : Cache) :
  subscribe w' payload
    (snd (subscribe w payload c))
  = subscribe w payload c.
Proof.
  destruct (isValidSubscription (selected payload)) eqn:Hv.
  - destruct (selected payload) as [o |] eqn:Hsel; [| done].
    rewrite (subscribe_valid w payload c o Hsel Hv). cbn [snd].
    rewrite (subscribe_valid w' payload _ o Hsel Hv).
    destruct (decide (endpoint (stored o) ∈ endpoint <$> cached c))
      as [Hin | Hout].
    + by rewrite !(bool_decide_eq_true_2 _ Hin).
    + rewrite (bool_decide_eq_false_2 _ Hout). cbn [cached].
      rewrite bool_decide_eq_true_2; [done |].
      rewrite fmap_app. apply elem_of_app. right.
      by apply list_elem_of_singleton.
  - by rewrite !subscribe_invalid by done.
Qed.

(** X16. Subscribing a new, non-empty endpoint appends it and answers
    201 with the endpoint as id; unsubscribing with that id then gives
    back the list as it was, in memory and, when the write succeeds, in
    the file. *)
Theorem subscribe_then_unsubscribe_by_returned_id (w : bool)
    (payload : option Subscribe_payload) (c : Cache)
    (o : Raw_subscription) (e : string) :
  selected payload = Some o →
  isValidSubscription (Some o) = true →
  raw_endpoint o = Text e →
  e ≠ EmptyString →
  e ∉ endpoint <$> cached c →
  let r := subscribe w payload c in
  let leave :=
    Some {| endpoint_field := assigned (fst r); nested_endpoint := None |} in
  status (fst r) = 201%Z
  ∧ assigned (fst r) = Some e
  ∧ cached (snd r) = cached c ++ [stored o]
  ∧ status (fst (unsubscribe true leave (snd r))) = 200%Z
  ∧ cached (snd (unsubscribe true leave (snd r))) = cached c
  ∧ saved (snd (unsubscribe true leave (snd r))) = cached c.
Proof.
  intros Hsel Hv He Hne Hout. cbv zeta.
  rewrite (subscribe_valid w payload c o Hsel Hv).
  cbn [fst snd assigned status].
  assert (Hend : endpoint (stored o) = e).
  { unfold stored; simpl. by rewrite He. }
  rewrite Hend, (bool_decide_eq_false_2 _ Hout). cbn [cached].
  unfold unsubscribe, requested_endpoint.
  cbn [endpoint_field]. unfold truthy.
  destruct (String.eqb_spec e EmptyString) as [| _]; [done |].
  cbn [fst snd status cached].
  assert (Hkept :
    filter (fun s => negb (String.eqb (endpoint s) e) = true)
           (cached c ++ [stored o]) = cached c).
  { rewrite filter_app, filter_other_endpoints.
    - rewrite filter_cons, decide_False, filter_nil; [by rewrite app_nil_r |].
      rewrite Hend, String.eqb_refl. done.
    - apply Forall_forall. intros s Hs Heq. apply Hout.
      apply list_elem_of_fmap. by exists s. }
  rewrite Hkept.
  assert (Hlen : Nat.eqb (length (cached c))
                         (length (cached c ++ [stored o])) = false).
  { apply Nat.eqb_neq. rewrite length_app. simpl. lia. }
  rewrite Hlen. by split_and!.
Qed.

Lemma subscribe_then_unsubscribe_by_returned_id_witness :
  let r :=
    subscribe true (Some Examples.raw_body) Scenario.cache in
  let leave :=
    Some {| endpoint_field := Some "https://push.example/device-2";
            nested_endpoint := None |} in
  assigned (fst r) = Some "https://push.example/device-2"
  ∧ length (cached (snd r)) = 2%nat
  ∧ snd (unsubscribe true leave (snd r)) = Scenario.cache.
Proof.
  cbv zeta.
  destruct (subscribe_then_unsubscribe_by_returned_id true
              (Some Examples.raw_body) Scenario.cache Examples.device
              "https://push.example/device-2" eq_refl eq_refl eq_refl)
    as (_ & H1 & H2 & _ & H3 & H4).
  - discriminate.
  - vm_compute. intros [H | H]%elem_of_cons; [discriminate | ].
    by apply elem_of_nil in H.
  - split_and!; [done | by rewrite H2 |].
    rewrite H1 in H3, H4.
    destruct (snd (unsubscribe true _ _)) as [l sv].
    simpl in H3, H4. by rewrite H3, H4.
Defined.

Lemma unsubscribe_keeps_nameless (w : bool) (payload : option Body)
    (c : Cache) (s : Subscription) :
  s ∈ cached c → endpoint s = EmptyString →
  s ∈ cached (snd (unsubscribe w payload c)).
Proof.
  intros Hin Hempty. unfold unsubscribe.
  destruct (requested_endpoint payload) as [e |] eqn:He; [| done].
  apply requested_endpoint_nonempty in He.
  assert (Hkept :
    s ∈ filter (fun s => negb (String.eqb (endpoint s) e) = true) (cached c)).
  { apply list_elem_of_filter. split; [| done].
    apply negb_true_iff, String.eqb_neq. by rewrite Hempty. }
  cbn [snd]. by destruct (Nat.eqb _ _).
Qed.

(** X17. A subscription whose endpoint is the empty string passes the
    validation, is stored, and is answered 201 with the empty id; no
    unsubscribe request can remove it afterwards, and the request that
    carries the returned id is answered 400. *)
Theorem empty_endpoint_cannot_be_unsubscribed (w : bool)
    (payload : option Subscribe_payload) (c : Cache)
    (o : Raw_subscription) :
  selected payload = Some o →
  isValidSubscription (Some o) = true →
  raw_endpoint o = Text EmptyString →
  let r := subscribe w payload c in
  status (fst r) = 201%Z
  ∧ assigned (fst r) = Some EmptyString
  ∧ (∃ s, s ∈ cached (snd r) ∧ endpoint s = EmptyString)
  ∧ (∀ w' leave,
       ∃ s, s ∈ cached (snd (unsubscribe w' leave (snd r)))
            ∧ endpoint s = EmptyString)
  ∧ (∀ w',
       unsubscribe w'
         (Some {| endpoint_field := assigned (fst r);
                  nested_endpoint := None |}) (snd r)
       = ({| status := 400; success := Some false; assigned := None;
             error := Some "Missing endpoint" |}, snd r)).
Proof.
  intros Hsel Hv He. cbv zeta.
  rewrite (subscribe_valid w payload c o Hsel Hv).
  cbn [fst snd assigned status].
  assert (Hend : endpoint (stored o) = EmptyString).
  { unfold stored; simpl. by rewrite He. }
  assert (Hheld : ∃ s,
    s ∈ cached (if bool_decide (endpoint (stored o) ∈ endpoint <$> cached c)
                then c
                else {| cached := cached c ++ [stored o];
                        saved := if w then cached c ++ [stored o]
                                 else saved c |})
    ∧ endpoint s = EmptyString).
  { destruct (decide (endpoint (stored o) ∈ endpoint <$> cached c))
      as [Hin | Hout].
    - rewrite bool_decide_eq_true_2 by done.
      apply list_elem_of_fmap in Hin as (s & Hs & Hin).
      exists s. split; [done |]. by rewrite <- Hs.
    - rewrite bool_decide_eq_false_2 by done. exists (stored o).
      split; [| done]. cbn [cached]. apply elem_of_app. right.
      by apply list_elem_of_singleton. }
  split_and!; [done | by rewrite Hend | done | |].
  - intros w' leave. destruct Hheld as (s & Hin & Hs).
    exists s. split; [| done]. by apply unsubscribe_keeps_nameless.
  - intros w'. by rewrite Hend.
Qed.

Lemma empty_endpoint_cannot_be_unsubscribed_witness :
  let r :=
    subscribe true (Some Examples.nameless_body)
      Scenario.cache in
  status (fst r) = 201%Z
  ∧ length (cached (snd r)) = 2%nat
  ∧ unsubscribe true
      (Some {| endpoint_field := Some EmptyString; nested_endpoint := None |})
      (snd r)
    = ({| status := 400; success := Some false; assigned := None;
          error := Some "Missing endpoint" |}, snd r).
Proof.
  cbv zeta.
  destruct (empty_endpoint_cannot_be_unsubscribed true
              (Some Examples.nameless_body) Scenario.cache Examples.nameless
              eq_refl eq_refl eq_refl)
    as (H1 & H2 & _ & _ & H3).
  split_and!; [done | vm_compute; reflexivity |].
  rewrite H2 in H3. apply H3.
Defined.

(** X18. A countdown run rejects, pruning nothing, exactly when some
    send rejects with [null] or [undefined]; otherwise it completes and
    drops the subscriptions whose endpoint was answered 410 or 404,
    keeps all the others in order, and writes the file only when it
    dropped something. *)
Theorem countdown_run_prunes_answered_gone
    (webpush : Transport) (p : Payload) (w : bool)
    (c : Cache) :
  let gone_endpoints :=
    endpoint <$> filter (fun s => answered_gone webpush p s = true)
                        (cached c) in
  let kept := filter (fun s => endpoint s ∉ gone_endpoints) (cached c) in
  (Exists (fun s => rejected_nullish webpush p s = true)
          (cached c) →
     sendCountdownNotification webpush p w c
     = Throw type_error)
  ∧ (Forall (fun s => rejected_nullish webpush p s = false)
            (cached c) →
       sendCountdownNotification webpush p w c
       = Normal {| cached := kept;
                   saved := match gone_endpoints with
                            | [] => saved c
                            | _ => if w then kept else saved c
                            end |}).
Proof.
  cbv zeta. split.
  - intros Hex. unfold sendCountdownNotification.
    destruct (cached c) as [| s l] eqn:Hl; [by apply Exists_nil in Hex |].
    by rewrite (all_of_rejects webpush p _ Hex).
  - apply sendCountdownNotification_normal.
Qed.

Lemma countdown_run_prunes_answered_gone_witness :
  sendCountdownNotification Examples.browser_gone
    Examples.countdown_payload true Examples.two_devices
  = Normal {| cached := [stored Examples.device];
              saved := [stored Examples.device] |}
  ∧ sendCountdownNotification Examples.rejects_null
      Examples.countdown_payload true Examples.two_devices
    = Throw type_error.
Proof.
  split.
  - destruct (countdown_run_prunes_answered_gone Examples.browser_gone
                Examples.countdown_payload true Examples.two_devices)
      as [_ H].
    rewrite H; [vm_compute; reflexivity |].
    repeat constructor.
  - vm_compute; reflexivity.
Defined.

(** X19. While writes succeed the file holds exactly the cached list
    after every subscribe, unsubscribe and countdown run; a write that
    fails is swallowed: the request is answered as usual, the cache
    moves on, and the file keeps the list it had. *)
Theorem file_mirrors_cache_while_writes_succeed (c : Cache) :
  saved c = cached c →
  (∀ payload,
     saved (snd (subscribe true payload c))
     = cached (snd (subscribe true payload c))
     ∧ saved (snd (subscribe false payload c)) = saved c
     ∧ fst (subscribe false payload c)
       = fst (subscribe true payload c)
     ∧ cached (snd (subscribe false payload c))
       = cached (snd (subscribe true payload c)))
  ∧ (∀ payload,
       saved (snd (unsubscribe true payload c))
       = cached (snd (unsubscribe true payload c))
       ∧ saved (snd (unsubscribe false payload c)) = saved c
       ∧ fst (unsubscribe false payload c)
         = fst (unsubscribe true payload c)
       ∧ cached (snd (unsubscribe false payload c))
         = cached (snd (unsubscribe true payload c)))
  ∧ (∀ webpush p c',
       sendCountdownNotification webpush p true c
       = Normal c' →
       saved c' = cached c'
       ∧ ∃ c'',
           sendCountdownNotification webpush p false c
           = Normal c''
           ∧ saved c'' = saved c ∧ cached c'' = cached c').
Proof.
  intros Hc. split_and!.
  - intros payload.
    destruct (isValidSubscription (selected payload)) eqn:Hv.
    + destruct (selected payload) as [o |] eqn:Hsel;
        [| done].
      rewrite !(subscribe_valid _ payload c o Hsel Hv). cbn [fst snd].
      by destruct (bool_decide _).
    + by rewrite !subscribe_invalid.
  - intros payload. unfold unsubscribe.
    destruct (requested_endpoint payload) as [e |]; [| done].
    cbn [fst snd].
    destruct (Nat.eqb _ _) eqn:Hlen; cbn [saved cached assign
      saveSubscriptions]; split_and!; try done.
    rewrite Hc. symmetry. apply filter_all.
    apply Nat.eqb_eq in Hlen.
    apply Forall_forall. intros s Hs.
    destruct (decide (negb (String.eqb (endpoint s) e) = true)) as [| Hno];
      [done |].
    pose proof (length_filter_lt
      (fun s => negb (String.eqb (endpoint s) e) = true) (cached c) s Hs Hno).
    lia.
  - intros webpush p c'. unfold sendCountdownNotification.
    destruct (cached c) as [| s l] eqn:Hl.
    { intros [= <-]. split; [congruence |]. by exists c. }
    rewrite <- Hl. rewrite <- Hl in Hc.
    destruct (all_of _) as [rs |]; [| done].
    destruct (toRemove rs) as [| e es].
    { intros [= <-]. split; [done |]. by exists c. }
    intros [= <-]. split; [done |]. by eexists.
Qed.

Lemma file_mirrors_cache_while_writes_succeed_witness :
  saved (snd (subscribe true (Some Examples.raw_body)
                Scenario.cache))
  = [Scenario.browser; stored Examples.device]
  ∧ saved (snd (subscribe false (Some Examples.raw_body)
                  Scenario.cache))
    = [Scenario.browser]
  ∧ cached (snd (subscribe false (Some Examples.raw_body)
                   Scenario.cache))
    = [Scenario.browser; stored Examples.device].
Proof.
  destruct (file_mirrors_cache_while_writes_succeed Scenario.cache eq_refl)
    as (H & _).
  destruct (H (Some Examples.raw_body)) as (H1 & H2 & _ & H3).
  rewrite H1, H2, H3. by vm_compute.
Defined.

End Endpoint_server_facts.

(** * Properties of the countdown of the in-memory variant *)

Section Countdown_facts.
Import Clock Countdown.

Lemma ceil_div_spec (a b : Z) :
  (0 < b)%Z →
  ((ceil_div a b - 1) * b < a <= ceil_div a b * b)%Z.
Proof.
  intros Hb. unfold ceil_div.
  pose proof (Z.div_mod (- a) b ltac:(lia)) as Hdm.
  pose proof (Z.mod_pos_bound (- a) b Hb) as Hmod.
  nia.
Qed.

(** X20. The countdown of the in-memory variant reports [isToday] only
    at the very instant of local midnight that opens 13 September: from
    the next millisecond on, and for the rest of that day, it counts
    towards 13 September of the following year. Away from that instant
    the day count is at least 1, and it is always the number of
    24-hour periods, rounded up, to the target it names, which never
    lies in the past. *)
Theorem countdown_is_today_only_at_midnight (h : Calendar) (today : Z) :
  (today < Date_of h (getFullYear h today + 1) 8 13)%Z →
  let r := getDaysUntilSeptember13 h today in
  (isToday r = true ↔ today = Date_of h (getFullYear h today) 8 13)
  ∧ (days r = 0 ↔ today = Date_of h (getFullYear h today) 8 13)%Z
  ∧ (0 <= days r)%Z
  ∧ (today <= targetDate r)%Z
  ∧ ((days r - 1) * 86400000 < targetDate r - today
     <= days r * 86400000)%Z
  ∧ targetDate r
    = (if (Date_of h (getFullYear h today) 8 13 <? today)%Z
       then Date_of h (getFullYear h today + 1) 8 13
       else Date_of h (getFullYear h today) 8 13).
Proof.
  intros Hnext. cbv zeta. unfold getDaysUntilSeptember13.
  cbn [isToday days targetDate].
  set (target0 := Date_of h (getFullYear h today) 8 13) in *.
  set (target := if (target0 <? today)%Z
                 then Date_of h (getFullYear h today + 1) 8 13
                 else target0).
  change (1000 * 3600 * 24)%Z with 86400000%Z.
  pose proof (ceil_div_spec (target - today) 86400000 ltac:(lia)) as Hceil.
  assert (Htarget : (today <= target)%Z
                    ∧ (target = today ↔ today = target0)).
  { unfold target. destruct (Z.ltb_spec target0 today); lia. }
  destruct Htarget as [Hle Hiff].
  rewrite Z.eqb_eq.
  assert (Hzero :
    (ceil_div (target - today) 86400000 = 0 ↔ today = target0)%Z).
  { rewrite <- Hiff. lia. }
  split_and!; try done; lia.
Qed.

Lemma countdown_is_today_only_at_midnight_witness :
  let midnight :=
    instant_of 0 {| year := 2025; month := 9; day := 13;
                    hour := 0; minute := 0; second := 0 |} in
  isToday (getDaysUntilSeptember13 Examples.utc_calendar midnight) = true
  ∧ isToday (getDaysUntilSeptember13 Examples.utc_calendar (midnight + 1))
    = false
  ∧ days (getDaysUntilSeptember13 Examples.utc_calendar
            Examples.launch_day_noon) = 365%Z.
Proof.
  cbv zeta.
  destruct (countdown_is_today_only_at_midnight Examples.utc_calendar
              (instant_of 0 {| year := 2025; month := 9; day := 13;
                               hour := 0; minute := 0; second := 0 |}))
    as ([_ Htoday] & _); [vm_compute; reflexivity |].
  split_and!; [| vm_compute; reflexivity | vm_compute; reflexivity].
  apply Htoday. vm_compute; reflexivity.
Defined.

End Countdown_facts.
